(** * Kubernetes provider: deployment and role resources

    A shallow embedding of the deployment resource (state migration,
    convergence wait, lifecycle operations) and of the role resource
    ([resource_kubernetes_role.go]), with the properties of the
    specification that concern them.

    Conventions.
    - Go [int], [int32]: [Z] (no arithmetic is performed on them, only
      comparisons, so no wrap-around has to be written out).
    - Go [error]: [option error], [None] being [nil].
    - Go [map[string]string]: [gmap string string].
    - A Go function that returns [(x, err)] returns a pair here as well.
    - Calls of [log.Printf] have no effect on the results and are left out. *)

From stdpp Require Import gmap strings list fin_maps.
From Stdlib Require Import ZArith String Ascii.

Local Open Scope string_scope.
Local Open Scope Z_scope.

(** ** The [strings] package *)

Module strings.

(** [strings.HasPrefix(s, prefix)] *)
Definition HasPrefix (s prefix : string) : bool := String.prefix prefix s.

Fixpoint drop (n : nat) (s : string) : string :=
  match n, s with
  | O, _ => s
  | S _, EmptyString => EmptyString
  | S k, String _ s' => drop k s'
  end.

(** [strings.Replace(s, old, new, 1)]: the first occurrence of [old] is
    replaced by [new]; [s] is returned as it is when [old] does not occur. *)
Fixpoint Replace1 (s old new : string) : string :=
  if String.prefix old s then new ++ drop (String.length old) s
  else match s with
       | EmptyString => EmptyString
       | String c s' => String c (Replace1 s' old new)
       end.

End strings.

(** ** Errors *)

(** Arguments of a format string, kept unrendered. *)
#[local] Unset Elimination Schemes.
Inductive fmt_arg : Type :=
| ArgInt (n : Z)
| ArgString (s : string)
| ArgError (e : error)

(** Go error values: [*errors.StatusError] of the API machinery (with the
    [ErrStatus.Code] it carries), errors built by [fmt.Errorf], the timeout
    of [resource.Retry], and any other error of the transport. *)
with error : Type :=
| StatusError (Code : Z) (Message : string)
| Errorf (format : string) (args : list fmt_arg)
| TimeoutError (LastError : option error)
| OtherError (msg : string).
#[local] Set Elimination Schemes.

(** ** Persisted state: [terraform.InstanceState] *)

(** The identity and the flat attribute map; the other fields of the
    library's type are not touched by the migration. *)
Record InstanceState : Type := {
  ID : string;
  Attributes : gmap string string
}.

(** What the terraform library and the Go runtime decide for the migrator:
    the method [is.Empty()], and the order in which [range] visits a map
    (left open by the language). Both are parameters. *)
Class Runtime : Type := {
  Empty : InstanceState -> bool;
  range : gmap string string -> list (string * string)
}.

(** [range] visits every entry of the map exactly once. *)
Definition range_complete (R : Runtime) : Prop :=
  forall m : gmap string string, range m ≡ₚ map_to_list m.

(** [is.Empty()] as the specification describes it: an empty record is one
    with no attributes at all. *)
Definition no_attributes (ist : InstanceState) : bool :=
  bool_decide (Attributes ist = ∅).

(** A runtime that takes a record without attributes as empty and visits
    maps in the order of [map_to_list]. *)
Definition plain_runtime : Runtime :=
  {| Empty := no_attributes; range := map_to_list |}.

(** ** Schema version migrator *)

Section Migrator.
Context {R : Runtime}.

(** Body of the first loop of [migrateStateV0toV1], for the entry [(k, v)];
    the state is [(is.Attributes, newTemplate)]. The loop deletes no key
    but the one it is visiting. *)
Definition migrateV0toV1_visit
    (acc : gmap string string * gmap string string) (kv : string * string)
  : gmap string string * gmap string string :=
  let '(attrs, newTemplate) := acc in
  let '(k, v) := kv in
  if strings.HasPrefix k "name" then
    (* don't clobber an existing metadata.0.name value *)
    if decide (is_Some (attrs !! "metadata.0.name")) then acc
    else
      let newK := "metadata.0.name" in
      (delete k attrs, <[newK := v]> newTemplate)
  else if negb (strings.HasPrefix k "spec.0.template") then acc
  else if strings.HasPrefix k "spec.0.template.0.spec"
          || strings.HasPrefix k "spec.0.template.0.metadata" then acc
  else
    let newK := strings.Replace1 k "spec.0.template.0" "spec.0.template.0.spec.0" in
    (delete k attrs, <[newK := v]> newTemplate).

Definition migrateStateV0toV1 (ist : InstanceState) : InstanceState * option error :=
  let '(attrs, newTemplate) :=
    foldl migrateV0toV1_visit (Attributes ist, ∅) (range (Attributes ist)) in
  let attrs' := map_fold (fun k v (m : gmap string string) => <[k := v]> m) attrs newTemplate in
  ({| ID := ID ist; Attributes := attrs' |}, None).

(** Add schema fields: paused, progress_deadline_seconds *)
Definition migrateStateV1toV2 (ist : InstanceState) : InstanceState * option error :=
  let attrs := <["spec.0.paused" := "false"]> (Attributes ist) in
  let attrs := <["spec.0.progress_deadline_seconds" := "600"]> attrs in
  ({| ID := ID ist; Attributes := attrs |}, None).

(** The [meta] argument is not used by the function and is left out. *)
Definition resourceKubernetesDeploymentStateUpgrader
    (v : Z) (ist : InstanceState) : InstanceState * option error :=
  if Empty ist then (ist, None)
  else
    match v with
    | 0 => migrateStateV0toV1 ist
    | 1 => migrateStateV1toV2 ist
    | _ => (ist, Some (Errorf "Unexpected schema version: %d" [ArgInt v]))
    end.

End Migrator.

(** ** Typed objects of the external API *)

(** Parts of the typed objects and of the framework that the lifecycle code
    only passes along: the pod template and the remaining fields of a
    deployment spec, the role object, and the values [d.Get] returns
    ([interface{}]) with the store behind [schema.ResourceData]. *)
Class Opaque : Type := {
  SpecRest : Type;
  Role : Type;
  iface : Type;
  store : Type
}.

Record ObjectMeta : Type := {
  Name : string;
  Namespace : string;
  Labels : gmap string string
}.

Record DeploymentSpec `{Opaque} : Type := {
  Replicas : option Z;          (* *int32 *)
  Rest : SpecRest
}.

Record DeploymentStatus : Type := {
  StatusReplicas : Z            (* Status.Replicas, int32 *)
}.

Record Deployment `{Opaque} : Type := {
  Meta : ObjectMeta;
  Spec : DeploymentSpec;
  Status : DeploymentStatus
}.

Definition GetName `{Opaque} (dep : Deployment) : string := Name (Meta dep).
Definition GetNamespace `{Opaque} (dep : Deployment) : string := Namespace (Meta dep).

Definition with_Labels `{Opaque} (dep : Deployment) (l : gmap string string) : Deployment :=
  {| Meta := {| Name := Name (Meta dep); Namespace := Namespace (Meta dep); Labels := l |};
     Spec := Spec dep; Status := Status dep |}.

(** ** Patch operations *)

Inductive PatchValue `{Opaque} : Type :=
| IntValue (n : Z)
| SpecValue (s : DeploymentSpec)
| OtherValue (x : iface).

Inductive PatchOperation `{Opaque} : Type :=
| AddOperation (Path : string) (Value : PatchValue)
| ReplaceOperation (Path : string) (Value : PatchValue)
| RemoveOperation (Path : string).

Inductive PatchType : Type := JSONPatchType | MergePatchType | StrategicMergePatchType.

Inductive DeletionPropagation : Type :=
| DeletePropagationOrphan | DeletePropagationBackground | DeletePropagationForeground.

Record DeleteOptions : Type := { PropagationPolicy : option DeletionPropagation }.

(** ** The external control API *)

(** The client set, as a machine over the state [cluster] of the remote
    system: every call may depend on that state and change it. *)
Class Clientset `{Opaque} : Type := {
  cluster : Type;
  DeploymentsCreate : string -> Deployment -> cluster -> (Deployment * option error) * cluster;
  DeploymentsGet : string -> string -> cluster -> (Deployment * option error) * cluster;
  DeploymentsPatch : string -> string -> PatchType -> string -> cluster ->
                     (Deployment * option error) * cluster;
  DeploymentsDelete : string -> string -> DeleteOptions -> cluster -> option error * cluster;
  RolesGet : string -> string -> cluster -> (Role * option error) * cluster;
  RolesDelete : string -> string -> DeleteOptions -> cluster -> option error * cluster
}.

(** The calls made to the API, in the order they were made. *)
Inductive Call `{Opaque} : Type :=
| CallDeploymentsCreate (ns : string) (dep : Deployment)
| CallDeploymentsGet (ns name : string)
| CallDeploymentsPatch (ns name : string) (pt : PatchType) (data : string)
| CallDeploymentsDelete (ns name : string) (opts : DeleteOptions)
| CallRolesGet (ns name : string)
| CallRolesDelete (ns name : string) (opts : DeleteOptions).

(** ** The framework: [schema.ResourceData] and [resource.Retry] *)

Inductive TimeoutKey : Type := TimeoutCreate | TimeoutUpdate | TimeoutDelete.

(** [d *schema.ResourceData]: the stored identity, the number of polls each
    operation's timeout leaves room for, and the attribute store. *)
Record ResourceData `{Opaque} : Type := {
  Id : string;
  Timeout : TimeoutKey -> nat;
  Data : store
}.

(** Accessors of [schema.ResourceData] ([d.Get], [d.Set], [d.HasChange]),
    on the attribute store. They belong to the framework and are parameters. *)
Class Framework `{Opaque} : Type := {
  dGet : string -> store -> iface;
  dSet : string -> iface -> store -> store * option error;
  dHasChange : string -> store -> bool
}.

(** Functions of the provider that the lifecycle code calls and that are
    defined in other files of the provider: the identity parser and builder,
    the translators between configuration and typed objects, the patch
    builder for the metadata and the encoder of patches. They are parameters. *)
Class Helpers `{Opaque} : Type := {
  idParts : string -> string * string * option error;
  buildId : ObjectMeta -> string;
  expandMetadata : iface -> ObjectMeta;
  expandDeploymentSpec : iface -> DeploymentSpec * option error;
  flattenMetadata : ObjectMeta -> ResourceData -> iface;
  flattenDeploymentSpec : DeploymentSpec -> ResourceData -> iface * option error;
  reconcileTopLevelLabels :
    gmap string string -> ObjectMeta -> ObjectMeta -> gmap string string;
  patchMetadata : string -> string -> ResourceData -> list PatchOperation;
  MarshalJSON : list PatchOperation -> string * option error
}.



(** ** Effects: the record, the remote system and the calls made *)

Section Lifecycle.
Context `{Opq : Opaque} {C : Clientset} {F : Framework} {H : Helpers}.

(** What an operation can read and change: the resource data behind [d],
    the remote system behind [meta], and the log of calls. *)
Record World : Type := {
  data : ResourceData;
  remote : cluster;
  calls : list Call
}.

(** An operation either returns or panics (a nil pointer is dereferenced). *)
Inductive Outcome (A : Type) : Type :=
| Done (a : A)
| Panicked (msg : string).
Global Arguments Done {A} a.
Global Arguments Panicked {A} msg.

Definition M (A : Type) : Type := World -> Outcome A * World.

Definition ret {A} (a : A) : M A := fun w => (Done a, w).

Definition bind {A B} (m : M A) (k : A -> M B) : M B :=
  fun w => match m w with
           | (Done a, w') => k a w'
           | (Panicked msg, w') => (Panicked msg, w')
           end.

Definition panic {A} (msg : string) : M A := fun w => (Panicked msg, w).

Definition get_d : M ResourceData := fun w => (Done (data w), w).

Definition put_d (d : ResourceData) : M unit :=
  fun w => (Done tt, {| data := d; remote := remote w; calls := calls w |}).

(** A call to the API: logged, answered by the remote system. *)
Definition api {A} (c : Call) (f : cluster -> A * cluster) : M A :=
  fun w => let '(a, r) := f (remote w) in
           (Done a, {| data := data w; remote := r; calls := calls w ++ [c] |}).

End Lifecycle.

Declare Scope go_scope.
Delimit Scope go_scope with go.
Notation "x <- m ; k" := (bind m (fun x => k))
  (at level 20, m at level 100, k at level 200, only parsing) : go_scope.
Notation "' p <- m ; k" := (bind m (fun x => let 'p := x in k))
  (at level 20, p pattern, m at level 100, k at level 200, only parsing) : go_scope.

Section Operations.
Context `{Opq : Opaque} {C : Clientset} {F : Framework} {H : Helpers}.
Local Open Scope go_scope.

(** [conn.ExtensionsV1beta1().Deployments(ns)] and [conn.RbacV1beta1().Roles(ns)] *)
Definition Deployments_Create (ns : string) (dep : Deployment) : M (Deployment * option error) :=
  api (CallDeploymentsCreate ns dep) (DeploymentsCreate ns dep).
Definition Deployments_Get (ns name : string) : M (Deployment * option error) :=
  api (CallDeploymentsGet ns name) (DeploymentsGet ns name).
Definition Deployments_Patch (ns name : string) (pt : PatchType) (body : string)
  : M (Deployment * option error) :=
  api (CallDeploymentsPatch ns name pt body) (DeploymentsPatch ns name pt body).
Definition Deployments_Delete (ns name : string) (opts : DeleteOptions) : M (option error) :=
  api (CallDeploymentsDelete ns name opts) (DeploymentsDelete ns name opts).
Definition Roles_Get (ns name : string) : M (Role * option error) :=
  api (CallRolesGet ns name) (RolesGet ns name).
Definition Roles_Delete (ns name : string) (opts : DeleteOptions) : M (option error) :=
  api (CallRolesDelete ns name opts) (RolesDelete ns name opts).

(** [d.SetId(id)] and [d.Set(key, value)] *)
Definition SetId (id : string) : M unit :=
  d <- get_d ;
  put_d {| Id := id; Timeout := Timeout d; Data := Data d |}.

Definition d_Set (key : string) (value : iface) : M (option error) :=
  d <- get_d ;
  let '(s, err) := dSet key value (Data d) in
  _ <- put_d {| Id := Id d; Timeout := Timeout d; Data := s |} ;
  ret err.

(** *** [resource.Retry] *)

Record RetryError : Type := { Err : error; Retryable : bool }.

Definition RetryableError (err : option error) : option RetryError :=
  match err with
  | None => None
  | Some e => Some {| Err := e; Retryable := true |}
  end.

Definition NonRetryableError (err : option error) : option RetryError :=
  match err with
  | None => None
  | Some e => Some {| Err := e; Retryable := false |}
  end.

(** [resource.Retry(timeout, f)] of the framework, as the specification
    describes the wait: [f] is polled until it returns nil or an error that
    is not retryable; when the time is up a timeout is returned, with the
    last error seen. Time is not modelled: the timeout is the number
    [polls] of polls it leaves room for. *)
Fixpoint retry_loop (polls : nat) (f : M (option RetryError)) (last : option error)
  : M (option error) :=
  match polls with
  | O => ret (Some (TimeoutError last))
  | S n =>
      rerr <- f ;
      match rerr with
      | None => ret None
      | Some re =>
          if Retryable re then retry_loop n f (Some (Err re))
          else ret (Some (Err re))
      end
  end.

Definition Retry (polls : nat) (f : M (option RetryError)) : M (option error) :=
  retry_loop polls f None.

(** *** The deployment resource *)

Definition waitForDeploymentReplicasFunc (ns name : string) : M (option RetryError) :=
  '(deployment, err) <- Deployments_Get ns name ;
  match err with
  | Some e => ret (NonRetryableError (Some e))
  | None =>
      match Replicas (Spec deployment) with
      | None => panic "nil pointer dereference"
      | Some desiredReplicas =>
          if StatusReplicas (Status deployment) =? desiredReplicas then ret None
          else ret (RetryableError (Some
                 (Errorf "Waiting for %d replicas of %q to be scheduled (%d)"
                    [ArgInt desiredReplicas; ArgString (GetName deployment);
                     ArgInt (StatusReplicas (Status deployment))])))
      end
  end.

Definition resourceKubernetesDeploymentRead : M (option error) :=
  d <- get_d ;
  let '(namespace, name, err) := idParts (Id d) in
  '(deployment, err) <- Deployments_Get namespace name ;
  match err with
  | Some e => ret (Some e)
  | None =>
      let deployment :=
        with_Labels deployment
          (reconcileTopLevelLabels (Labels (Meta deployment))
             (expandMetadata (dGet "metadata" (Data d)))
             (expandMetadata (dGet "spec.0.template.0.metadata" (Data d)))) in
      err <- d_Set "metadata" (flattenMetadata (Meta deployment) d) ;
      match err with
      | Some e => ret (Some e)
      | None =>
          d <- get_d ;
          let '(spec, err) := flattenDeploymentSpec (Spec deployment) d in
          match err with
          | Some e => ret (Some e)
          | None =>
              err <- d_Set "spec" spec ;
              match err with
              | Some e => ret (Some e)
              | None => ret None
              end
          end
      end
  end.

Definition resourceKubernetesDeploymentCreate : M (option error) :=
  d <- get_d ;
  let metadata := expandMetadata (dGet "metadata" (Data d)) in
  let '(spec, err) := expandDeploymentSpec (dGet "spec" (Data d)) in
  match err with
  | Some e => ret (Some e)
  | None =>
      let metadata :=
        if String.eqb (Namespace metadata) "" then
          {| Name := Name metadata; Namespace := "default"; Labels := Labels metadata |}
        else metadata in
      let deployment :=
        {| Meta := metadata; Spec := spec; Status := {| StatusReplicas := 0 |} |} in
      '(out, err) <- Deployments_Create (Namespace metadata) deployment ;
      match err with
      | Some e => ret (Some (Errorf "Failed to create deployment: %s" [ArgError e]))
      | None =>
          _ <- SetId (buildId (Meta out)) ;
          (* the log line dereferences out.Spec.Replicas *)
          match Replicas (Spec out) with
          | None => panic "nil pointer dereference"
          | Some _ =>
              d <- get_d ;
              err <- Retry (Timeout d TimeoutCreate)
                       (waitForDeploymentReplicasFunc (GetNamespace out) (GetName out)) ;
              match err with
              | Some e => ret (Some e)
              | None => resourceKubernetesDeploymentRead
              end
          end
      end
  end.

Definition resourceKubernetesDeploymentUpdate : M (option error) :=
  d <- get_d ;
  let '(namespace, name, err) := idParts (Id d) in
  let ops := patchMetadata "metadata.0." "/metadata/" d in
  let submit (ops : list PatchOperation) : M (option error) :=
    let '(body, err) := MarshalJSON ops in
    match err with
    | Some e => ret (Some (Errorf "Failed to marshal update operations: %s" [ArgError e]))
    | None =>
        '(out, err) <- Deployments_Patch namespace name JSONPatchType body ;
        match err with
        | Some e => ret (Some (Errorf "Failed to update deployment: %s" [ArgError e]))
        | None =>
            err <- Retry (Timeout d TimeoutUpdate)
                     (waitForDeploymentReplicasFunc namespace name) ;
            match err with
            | Some e => ret (Some e)
            | None => resourceKubernetesDeploymentRead
            end
        end
    end in
  if dHasChange "spec" (Data d) then
    let '(spec, err) := expandDeploymentSpec (dGet "spec" (Data d)) in
    match err with
    | Some e => ret (Some e)
    | None => submit (ops ++ [ReplaceOperation "/spec" (SpecValue spec)])%list
    end
  else submit ops.

Definition resourceKubernetesDeploymentDelete : M (option error) :=
  d <- get_d ;
  let '(namespace, name, err) := idParts (Id d) in
  (* Drain all replicas before deleting *)
  let ops := ([] ++ [ReplaceOperation "/spec/replicas" (IntValue 0)])%list in
  let '(body, err) := MarshalJSON ops in
  match err with
  | Some e => ret (Some e)
  | None =>
      '(_, err) <- Deployments_Patch namespace name JSONPatchType body ;
      match err with
      | Some e => ret (Some e)
      | None =>
          (* Wait until all replicas are gone *)
          err <- Retry (Timeout d TimeoutDelete)
                   (waitForDeploymentReplicasFunc namespace name) ;
          match err with
          | Some e => ret (Some e)
          | None =>
              let policy := DeletePropagationForeground in
              err <- Deployments_Delete namespace name
                       {| PropagationPolicy := Some policy |} ;
              match err with
              | Some e => ret (Some e)
              | None => _ <- SetId "" ; ret None
              end
          end
      end
  end.

(** [err] is a [*errors.StatusError] whose [ErrStatus.Code] is 404. *)
Definition isStatus404 (err : error) : bool :=
  match err with
  | StatusError Code _ => Code =? 404
  | _ => false
  end.

Definition resourceKubernetesDeploymentExists : M (bool * option error) :=
  d <- get_d ;
  let '(namespace, name, err) := idParts (Id d) in
  '(_, err) <- Deployments_Get namespace name ;
  match err with
  | Some e => if isStatus404 e then ret (false, None) else ret (true, err)
  | None => ret (true, err)
  end.

(** *** The role resource *)

Definition resourceKubernetesRoleCreate : M (option error) := ret None.

Definition resourceKubernetesRoleRead : M (option error) := ret None.

Definition resourceKubernetesRoleUpdate : M (option error) := ret None.

Definition resourceKubernetesRoleDelete : M (option error) :=
  d <- get_d ;
  let '(namespace, name, err) := idParts (Id d) in
  match err with
  | Some e => ret (Some e)
  | None =>
      err <- Roles_Delete namespace name {| PropagationPolicy := None |} ;
      match err with
      | Some e => ret (Some e)
      | None => _ <- SetId "" ; ret None
      end
  end.

Definition resourceKubernetesRoleExists : M (bool * option error) :=
  d <- get_d ;
  let '(namespace, name, err) := idParts (Id d) in
  match err with
  | Some e => ret (false, Some e)
  | None =>
      '(_, err) <- Roles_Get namespace name ;
      match err with
      | Some e => if isStatus404 e then ret (false, None) else ret (true, err)
      | None => ret (true, err)
      end
  end.

End Operations.

(** ** Observations on a run *)

Section Observations.
Context `{Opq : Opaque} {C : Clientset} {F : Framework} {H : Helpers}.
Local Open Scope list_scope.

(** The world after one more call [c] that left the remote system in [r]. *)
Definition after_call (w : World) (c : Call) (r : cluster) : World :=
  {| data := data w; remote := r; calls := calls w ++ [c] |}.

(** The world after [n] more polls of [ns/name] that left the remote system in [r]. *)
Definition after_polls (w : World) (ns name : string) (n : nat) (r : cluster) : World :=
  {| data := data w; remote := r;
     calls := calls w ++ replicate n (CallDeploymentsGet ns name) |}.

(** A poll of [ns/name] that took the remote system from [c] to [c'] and
    found as many replicas as are wanted. *)
Definition converged_at (ns name : string) (c c' : cluster) : Prop :=
  exists dep, DeploymentsGet ns name c = ((dep, None), c')
              /\ Replicas (Spec dep) = Some (StatusReplicas (Status dep)).

(** Whatever [m] does, the calls made before it are still there, followed
    by those it made. *)
Definition calls_grow {A} (m : M A) : Prop :=
  forall w, exists rest, calls (m w).2 = calls w ++ rest.



End Observations.

(** ** Registration of the resources *)

Module schema.

(** [schema.Resource], with the entry points and the migration a
    resource registers; [None] is an entry point left nil. *)
Record Resource `{Opq : Opaque} {C : Clientset} : Type := {
  Create : option (M (option error));
  Read : option (M (option error));
  Update : option (M (option error));
  Delete : option (M (option error));
  Exists : option (M (bool * option error));
  SchemaVersion : Z;
  MigrateState : option (Z -> InstanceState -> InstanceState * option error)
}.

End schema.

Section Registration.
Context `{Opq : Opaque} {C : Clientset} {F : Framework} {H : Helpers} {R : Runtime}.

Definition resourceKubernetesDeployment : schema.Resource :=
  {| schema.Create := Some resourceKubernetesDeploymentCreate;
     schema.Read := Some resourceKubernetesDeploymentRead;
     schema.Exists := Some resourceKubernetesDeploymentExists;
     schema.Update := Some resourceKubernetesDeploymentUpdate;
     schema.Delete := Some resourceKubernetesDeploymentDelete;
     schema.SchemaVersion := 2;
     schema.MigrateState := Some resourceKubernetesDeploymentStateUpgrader |}.

Definition resourceKubernetesRole : schema.Resource :=
  {| schema.Create := Some resourceKubernetesRoleCreate;
     schema.Read := Some resourceKubernetesRoleRead;
     schema.Update := Some resourceKubernetesRoleUpdate;
     schema.Delete := Some resourceKubernetesRoleDelete;
     schema.Exists := Some resourceKubernetesRoleExists;
     schema.SchemaVersion := 0;
     schema.MigrateState := None |}.

End Registration.

(** ** The answers of the existence check, in the words of the specification *)

(** What the existence check answers to the error [gerr] of the external
    Get: not there and no error for a status error with code 404, there
    and the error for any other error, there and no error for none. *)
Definition exists_answer (gerr : option error) (r : bool * option error) : Prop :=
  (forall msg, gerr = Some (StatusError 404 msg) -> r = (false, None))
  /\ (forall e, gerr = Some e -> (forall msg, e <> StatusError 404 msg) -> r = (true, Some e))
  /\ (gerr = None -> r = (true, None)).

(** ** Sample records *)

(** A version 0 record: the name at the top level, the pod fields directly
    below the template. *)
Definition record_v0 : InstanceState :=
  {| ID := "default/web";
     Attributes := {[ "name" := "web";
                      "spec.0.replicas" := "3";
                      "spec.0.template.0.hostname" := "h" ]} |}.

(** A version 0 record that holds a name at both places. *)
Definition record_both : InstanceState :=
  {| ID := "default/web";
     Attributes := {[ "name" := "web"; "metadata.0.name" := "api" ]} |}.

(** A record of the latest version. *)
Definition record_v2 : InstanceState :=
  {| ID := "default/web";
     Attributes := {[ "metadata.0.name" := "web";
                      "spec.0.paused" := "false";
                      "spec.0.progress_deadline_seconds" := "600" ]} |}.


(** ** A sample world *)

(** A small remote system with one deployment, [default/web], used to run
    the operations on concrete inputs: the observed replica count moves one
    step towards the desired one on every read, a patch sets the desired
    count to 0, a delete removes the deployment. There are no roles. *)
Module Sample.

Definition opaque : Opaque :=
  {| SpecRest := unit; Role := unit; iface := unit; store := unit |}.

Record remote_state : Type := {
  present : bool;
  desired : Z;
  observed : Z
}.

Definition deployment_of (c : remote_state) : @Deployment opaque :=
  {| Meta := {| Name := "web"; Namespace := "default"; Labels := ∅ |};
     Spec := {| Replicas := Some (desired c); Rest := tt : @SpecRest opaque |};
     Status := {| StatusReplicas := observed c |} |}.

Definition no_deployment : @Deployment opaque :=
  {| Meta := {| Name := ""; Namespace := ""; Labels := ∅ |};
     Spec := {| Replicas := None; Rest := tt : @SpecRest opaque |};
     Status := {| StatusReplicas := 0 |} |}.

Definition not_found : error := StatusError 404 "deployments not found".

Definition is_web (c : remote_state) (ns name : string) : bool :=
  present c && String.eqb ns "default" && String.eqb name "web".

Definition settle (c : remote_state) : remote_state :=
  {| present := present c; desired := desired c;
     observed := if observed c <? desired c then observed c + 1
                 else if desired c <? observed c then observed c - 1
                 else observed c |}.

Definition client : @Clientset opaque :=
  {| cluster := remote_state;
     DeploymentsCreate := fun ns dep c =>
       ((dep, None), {| present := true; desired := default 1 (Replicas (Spec dep));
                        observed := 0 |});
     DeploymentsGet := fun ns name c =>
       if is_web c ns name then ((deployment_of c, None), settle c)
       else ((no_deployment, Some not_found), c);
     DeploymentsPatch := fun ns name pt body c =>
       if is_web c ns name then
         let c' := {| present := true; desired := 0; observed := observed c |} in
         ((deployment_of c', None), c')
       else ((no_deployment, Some not_found), c);
     DeploymentsDelete := fun ns name opts c =>
       if is_web c ns name then
         (None, {| present := false; desired := desired c; observed := observed c |})
       else (Some not_found, c);
     RolesGet := fun ns name c => ((tt : @Role opaque, Some (StatusError 404 "roles not found")), c);
     RolesDelete := fun ns name opts c => (Some (StatusError 404 "roles not found"), c) |}.

Definition framework : @Framework opaque :=
  {| dGet := fun _ _ => tt : @iface opaque;
     dSet := fun _ _ s => (s, None);
     dHasChange := fun _ _ => false |}.

(** The parts of [s] between the separators [sep]. *)
Fixpoint Split (s : string) (sep : ascii) : list string :=
  match s with
  | EmptyString => [EmptyString]
  | String c s' =>
      if Ascii.eqb c sep then EmptyString :: Split s' sep
      else match Split s' sep with
           | [] => [String c EmptyString]
           | part :: parts => String c part :: parts
           end
  end.

(** An identity parser: [namespace/name], anything else is an error. *)
Definition parse_id (id : string) : string * string * option error :=
  match Split id "/" with
  | [namespace; name] => (namespace, name, None)
  | _ => ("", "", Some (Errorf "Unexpected ID format (%q), expected %q."
                          [ArgString id; ArgString "namespace/name"]))
  end.

Definition helpers : @Helpers opaque :=
  {| idParts := parse_id;
     buildId := fun m => Namespace m ++ "/" ++ Name m;
     expandMetadata := fun _ => {| Name := "web"; Namespace := "default"; Labels := ∅ |};
     expandDeploymentSpec := fun _ => ({| Replicas := Some 3; Rest := tt : @SpecRest opaque |}, None);
     flattenMetadata := fun _ _ => tt : @iface opaque;
     flattenDeploymentSpec := fun _ _ => (tt : @iface opaque, None);
     reconcileTopLevelLabels := fun l _ _ => l;
     patchMetadata := fun _ _ _ => [];
     MarshalJSON := fun ops => ("[{op:replace}]", None) |}.

Definition resource_data (id : string) : @ResourceData opaque :=
  {| Id := id; Timeout := fun _ => 10%nat; Data := tt : @store opaque |}.

(** Three replicas are running, three are wanted; nothing has been called. *)
Definition running : remote_state := {| present := true; desired := 3; observed := 3 |}.

Definition world (id : string) (c : remote_state) : @World opaque client :=
  @Build_World opaque client (resource_data id) c [].

(** The record of [default/web], and a record whose identity is malformed. *)
Definition web : @World opaque client := world "default/web" running.
Definition malformed : @World opaque client := world "web" running.

End Sample.

(** ** Vocabulary of the step from version 0 to version 1 *)

(** The tests of the loop of [migrateStateV0toV1] on a key: it starts with
    [name]; it is below [spec.0.template] but neither below
    [spec.0.template.0.spec] nor below [spec.0.template.0.metadata] (and
    does not start with [name], which is tested first). *)
Definition name_key (k : string) : bool := strings.HasPrefix k "name".

Definition template_key (k : string) : bool :=
  negb (strings.HasPrefix k "name")
  && strings.HasPrefix k "spec.0.template"
  && negb (strings.HasPrefix k "spec.0.template.0.spec"
           || strings.HasPrefix k "spec.0.template.0.metadata").

(** The key a template attribute is moved to. *)
Definition relocated (k : string) : string :=
  strings.Replace1 k "spec.0.template.0" "spec.0.template.0.spec.0".

(** Whether a visit moves the key [k], given whether [metadata.0.name] is
    free, and the key it is moved to. *)
Definition moves (free : bool) (k : string) : bool :=
  if name_key k then free else template_key k.

Definition target (k : string) : string :=
  if name_key k then "metadata.0.name" else relocated k.

(** At most one key of the map starts with [name]. *)
Definition one_name_key (m : gmap string string) : Prop :=
  forall k1 k2, is_Some (m !! k1) -> is_Some (m !! k2) ->
                name_key k1 = true -> name_key k2 = true -> k1 = k2.

(** A runtime that visits maps in the reverse order of [map_to_list]. *)
Definition reversed_runtime : Runtime :=
  {| Empty := no_attributes; range := fun m => reverse (map_to_list m) |}.

(** A version 0 record with two keys that start with [name]. *)
Definition record_two_names : InstanceState :=
  {| ID := "default/web";
     Attributes := {[ "name" := "web"; "namespace" := "prod" ]} |}.

(** A version 0 record with an attribute both at its old place below the
    template and at the place it is moved to. *)
Definition record_collision : InstanceState :=
  {| ID := "default/web";
     Attributes := {[ "spec.0.template.0.hostname" := "old";
                      "spec.0.template.0.spec.0.hostname" := "new" ]} |}.

(** ** Further observations on a run *)

Section MoreObservations.
Context `{Opq : Opaque} {C : Clientset} {F : Framework} {H : Helpers}.
Local Open Scope list_scope.

(** Whatever [m] does, the stored identity is the one it started with. *)
Definition keeps_id {A} (m : M A) : Prop :=
  forall w, Id (data (m w).2) = Id (data w).

(** The namespace Create works in: the declared one, [default] when none
    is declared. *)
Definition create_namespace (w : World) : string :=
  let declared := Namespace (expandMetadata (dGet "metadata" (Data (data w)))) in
  if String.eqb declared "" then "default" else declared.

(** The operations Update submits: those for the metadata, followed by one
    replacement of [/spec] when the spec has changed. *)
Definition update_operations (w : World) (spec : DeploymentSpec) : list PatchOperation :=
  patchMetadata "metadata.0." "/metadata/" (data w)
  ++ (if dHasChange "spec" (Data (data w))
      then [ReplaceOperation "/spec" (SpecValue spec)] else []).

(** The object Create submits: the declared metadata in the namespace
    Create works in, the expanded spec, no status. *)
Definition create_object (w : World) (spec : DeploymentSpec) : Deployment :=
  let declared := expandMetadata (dGet "metadata" (Data (data w))) in
  {| Meta := {| Name := Name declared; Namespace := create_namespace w;
                Labels := Labels declared |};
     Spec := spec; Status := {| StatusReplicas := 0 |} |}.

(** The record with its identity cleared. *)
Definition cleared (d : ResourceData) : ResourceData :=
  {| Id := ""; Timeout := Timeout d; Data := Data d |}.

End MoreObservations.

(** ** Sample failures *)

(** Helpers whose spec expansion or patch encoding fails, and a remote
    system that refuses every call. *)
Module SampleFailures.

Definition bad_spec : error := Errorf "spec: template is required" [].
Definition bad_encoding : error := Errorf "json: unsupported value" [].
Definition refused : error := OtherError "connection refused".

Definition helpers_no_spec : @Helpers Sample.opaque :=
  {| idParts := Sample.parse_id;
     buildId := fun m => Namespace m ++ "/" ++ Name m;
     expandMetadata := fun _ => {| Name := "web"; Namespace := ""; Labels := ∅ |};
     expandDeploymentSpec := fun _ =>
       ({| Replicas := None; Rest := tt : @SpecRest Sample.opaque |}, Some bad_spec);
     flattenMetadata := fun _ _ => tt : @iface Sample.opaque;
     flattenDeploymentSpec := fun _ _ => (tt : @iface Sample.opaque, None);
     reconcileTopLevelLabels := fun l _ _ => l;
     patchMetadata := fun _ _ _ => [];
     MarshalJSON := fun ops => ("", None) |}.

Definition helpers_no_marshal : @Helpers Sample.opaque :=
  {| idParts := Sample.parse_id;
     buildId := fun m => Namespace m ++ "/" ++ Name m;
     expandMetadata := fun _ => {| Name := "web"; Namespace := ""; Labels := ∅ |};
     expandDeploymentSpec := fun _ =>
       ({| Replicas := Some 3; Rest := tt : @SpecRest Sample.opaque |}, None);
     flattenMetadata := fun _ _ => tt : @iface Sample.opaque;
     flattenDeploymentSpec := fun _ _ => (tt : @iface Sample.opaque, None);
     reconcileTopLevelLabels := fun l _ _ => l;
     patchMetadata := fun _ _ _ => [];
     MarshalJSON := fun ops => ("", Some bad_encoding) |}.

Definition refusing : @Clientset Sample.opaque :=
  {| cluster := unit;
     DeploymentsCreate := fun ns dep c => ((dep, Some refused), c);
     DeploymentsGet := fun ns name c => ((Sample.no_deployment, Some refused), c);
     DeploymentsPatch := fun ns name pt body c => ((Sample.no_deployment, Some refused), c);
     DeploymentsDelete := fun ns name opts c => (Some refused, c);
     RolesGet := fun ns name c => ((tt : @Role Sample.opaque, Some refused), c);
     RolesDelete := fun ns name opts c => (Some refused, c) |}.

(** The record of [default/web] in front of the remote system that refuses. *)
Definition cut_off : @World Sample.opaque refusing :=
  @Build_World Sample.opaque refusing (Sample.resource_data "default/web") tt [].

End SampleFailures.

(** * Properties *)

(** ** Schema version migrator *)

Section MigratorFacts.
Context {R : Runtime}.

Local Abbreviation dst := "metadata.0.name" (only parsing).

Lemma HasPrefix_head (s p : string) (c : ascii) :
  strings.HasPrefix s (String c p) = true -> exists t, s = String c t.
Proof.
  unfold strings.HasPrefix. destruct s as [|b s]; simpl; [discriminate|].
  destruct (ascii_dec c b) as [->|]; [eauto | discriminate].
Qed.

Lemma prefix_nil (s : string) : String.prefix "" s = true.
Proof. by destruct s. Qed.

Lemma prefix_cons (a b : ascii) (p s : string) :
  String.prefix (String a p) (String b s) = true <-> a = b /\ String.prefix p s = true.
Proof.
  simpl. destruct (ascii_dec a b) as [->|Hne]; [tauto|].
  split; [discriminate | by intros [? _]].
Qed.

(** Of two prefixes of [s], the shorter is a prefix of the longer. *)
Lemma prefix_of_longer (s : string) :
  forall p q : string,
  String.prefix p s = true -> String.prefix q s = true ->
  (String.length p <= String.length q)%nat -> String.prefix p q = true.
Proof.
  induction s as [|c s IH]; intros [|a p] [|b q] Hp Hq Hlen;
    try apply prefix_nil; try discriminate; simpl in Hlen; try lia.
  apply prefix_cons in Hp as [-> Hp]. apply prefix_cons in Hq as [-> Hq].
  apply prefix_cons. split; [done|]. apply IH; [done | done | lia].
Qed.

Lemma prefix_trans (p q s : string) :
  String.prefix p q = true -> String.prefix q s = true -> String.prefix p s = true.
Proof.
  revert q s. induction p as [|a p IH]; intros [|b q] [|c s] Hpq Hqs;
    try apply prefix_nil; try discriminate.
  apply prefix_cons in Hpq as [-> Hpq]. apply prefix_cons in Hqs as [-> Hqs].
  apply prefix_cons. eauto.
Qed.

Lemma prefix_app (p s t : string) :
  String.prefix p s = true -> String.prefix p (s ++ t) = true.
Proof.
  revert s. induction p as [|a p IH]; intros [|b s] Hp;
    try apply prefix_nil; try discriminate.
  apply prefix_cons in Hp as [-> Hp]. simpl String.append.
  apply prefix_cons. eauto.
Qed.

(** [Replace1] keeps every prefix of [s] that is no longer than [old],
    when [new] starts with [old]. *)
Lemma Replace1_keeps_prefix (old new : string) :
  String.prefix old new = true ->
  forall s p : string,
  String.prefix p s = true -> (String.length p <= String.length old)%nat ->
  String.prefix p (strings.Replace1 s old new) = true.
Proof.
  intros Hnew. induction s as [|c s IH]; intros p Hp Hlen.
  - cbn [strings.Replace1]. destruct (String.prefix old "") eqn:Hold; [|done].
    apply prefix_app. apply prefix_trans with old; [|done].
    by apply prefix_of_longer with "".
  - cbn [strings.Replace1]. destruct (String.prefix old (String c s)) eqn:Hold.
    + apply prefix_app. apply prefix_trans with old; [|done].
      by apply prefix_of_longer with (String c s).
    + destruct p as [|a p]; [apply prefix_nil|].
      apply prefix_cons in Hp as [-> Hp]. apply prefix_cons. split; [done|].
      apply IH; [done | simpl in Hlen; lia].
Qed.

(** The key a [spec.0.template] attribute is moved to is below
    [spec.0.template] as well. *)
Lemma moved_key_prefix (k : string) :
  strings.HasPrefix k "spec.0.template" = true ->
  strings.HasPrefix
    (strings.Replace1 k "spec.0.template.0" "spec.0.template.0.spec.0")
    "spec.0.template" = true.
Proof.
  intros Hk. unfold strings.HasPrefix.
  apply Replace1_keeps_prefix; [reflexivity | exact Hk | simpl; lia].
Qed.

Lemma foldl_invariant {A B} (P : A -> Prop) (f : A -> B -> A) (l : list B) (a : A) :
  P a -> (forall a x, P a -> P (f a x)) -> P (foldl f a l).
Proof.
  intros Ha Hstep. revert a Ha. induction l; simpl; auto.
Qed.

Lemma map_fold_insert_union (m nt : gmap string string) :
  map_fold (fun k v (r : gmap string string) => <[k := v]> r) m nt = nt ∪ m.
Proof.
  apply (map_fold_weak_ind (fun r (n : gmap string string) => r = n ∪ m)).
  - by rewrite (left_id_L ∅ (∪)).
  - intros i x n r _ ->. by rewrite insert_union_l.
Qed.

Lemma migrateStateV0toV1_attributes (ist : InstanceState) :
  Attributes (migrateStateV0toV1 ist).1 =
    (foldl migrateV0toV1_visit (Attributes ist, ∅) (range (Attributes ist))).2
    ∪ (foldl migrateV0toV1_visit (Attributes ist, ∅) (range (Attributes ist))).1.
Proof.
  unfold migrateStateV0toV1.
  destruct (foldl _ _ _) as [a nt]. simpl. apply map_fold_insert_union.
Qed.

(** What a visit can do: nothing; move a [name...] key to
    [metadata.0.name], only when that key is free; move a key that starts
    with [s] to another key, below [spec.0.template]. *)
Lemma migrateV0toV1_visit_cases (a nt : gmap string string) (k v : string) :
  (strings.HasPrefix k "name" = true /\ is_Some (a !! dst)
      /\ migrateV0toV1_visit (a, nt) (k, v) = (a, nt))
  \/ (strings.HasPrefix k "name" = true /\ a !! dst = None
      /\ migrateV0toV1_visit (a, nt) (k, v) = (delete k a, <[dst := v]> nt))
  \/ (strings.HasPrefix k "name" = false
      /\ migrateV0toV1_visit (a, nt) (k, v) = (a, nt))
  \/ (exists t t', k = String "s" t
      /\ strings.HasPrefix (String "s" t') "spec.0.template" = true
      /\ migrateV0toV1_visit (a, nt) (k, v) = (delete k a, <[String "s" t' := v]> nt)).
Proof.
  unfold migrateV0toV1_visit.
  destruct (strings.HasPrefix k "name") eqn:Hname.
  - destruct (decide (is_Some (a !! dst))) as [|Hnone]; [by left|].
    right; left. split; [done|]. split; [|done].
    by apply eq_None_not_Some.
  - destruct (strings.HasPrefix k "spec.0.template") eqn:Htpl; simpl;
      [|by right; right; left].
    destruct (_ || _); [by right; right; left|].
    right; right; right.
    pose proof (moved_key_prefix _ Htpl) as Hnew.
    destruct (HasPrefix_head _ _ _ Htpl) as [t ->].
    destruct (HasPrefix_head _ _ _ Hnew) as [t' Ht']. rewrite Ht' in Hnew |- *.
    by exists t, t'.
Qed.

(** With a value at [metadata.0.name], the loop leaves that key and every
    key that starts with [name] as they are, in both maps. *)
Lemma visit_loop_keeps_destination (attrs : gmap string string) (v0 : string)
    (l : list (string * string)) :
  attrs !! dst = Some v0 ->
  let r := foldl migrateV0toV1_visit (attrs, ∅) l in
  r.1 !! dst = Some v0 /\ r.2 !! dst = None
  /\ forall k, strings.HasPrefix k "name" = true ->
               r.1 !! k = attrs !! k /\ r.2 !! k = None.
Proof.
  intros Hdst.
  apply (foldl_invariant
    (fun r : gmap string string * gmap string string =>
       r.1 !! dst = Some v0 /\ r.2 !! dst = None
       /\ forall k, strings.HasPrefix k "name" = true ->
                    r.1 !! k = attrs !! k /\ r.2 !! k = None)).
  - simpl. split; [done|]. split; [apply lookup_empty|].
    intros k _. split; [done | apply lookup_empty].
  - intros [a nt] [k v] (Ha & Hnt & Hnames). simpl in Ha, Hnt, Hnames.
    destruct (migrateV0toV1_visit_cases a nt k v)
      as [(_ & _ & ->) | [(_ & Hfree & _) | [(_ & ->) | (t & t' & -> & _ & ->)]]];
      [done | congruence | done |].
    simpl. rewrite lookup_delete_ne by discriminate.
    rewrite lookup_insert_ne by discriminate.
    split; [done|]. split; [done|].
    intros k Hk. destruct (HasPrefix_head _ _ _ Hk) as [u ->].
    rewrite lookup_delete_ne by discriminate.
    rewrite lookup_insert_ne by discriminate.
    by apply Hnames.
Qed.

(** Without a value at [metadata.0.name], and with [name] the only key
    that starts with [name]: once the loop has visited [name], its value
    waits in [newTemplate] under [metadata.0.name] and [name] is gone. *)
Lemma visit_loop_moves_name (v : string) (l : list (string * string)) :
  forall a nt : gmap string string,
  (forall k x, (k, x) ∈ l -> strings.HasPrefix k "name" = true -> k = "name" /\ x = v) ->
  a !! dst = None -> nt !! "name" = None ->
  let r := foldl migrateV0toV1_visit (a, nt) l in
  r.1 !! dst = None /\ r.2 !! "name" = None
  /\ ("name" ∈ l.*1 -> r.2 !! dst = Some v /\ r.1 !! "name" = None)
  /\ ("name" ∉ l.*1 -> r.2 !! dst = nt !! dst /\ r.1 !! "name" = a !! "name").
Proof.
  induction l as [|[k x] l IH]; intros a nt Hl Ha Hnt; cbn [foldl]; rewrite ?fmap_cons;
    cbn [fst].
  - split; [done|]. split; [done|]. split; [|done].
    intros Hin. by apply elem_of_nil in Hin.
  - assert (Hl' : forall k x, (k, x) ∈ l ->
              strings.HasPrefix k "name" = true -> k = "name" /\ x = v).
    { intros k' x' Hin. apply Hl. by right. }
    destruct (migrateV0toV1_visit_cases a nt k x)
      as [(_ & [? Hs] & _) | [(Hname & _ & ->) | [(Hname & ->) | (t & t' & -> & _ & ->)]]].
    + congruence.
    + destruct (Hl k x (list_elem_of_here _ _) Hname) as [-> ->].
      destruct (IH (delete "name" a) (<[dst := v]> nt) Hl') as (H1 & H2 & H3 & H4).
      { by rewrite lookup_delete_ne. }
      { by rewrite lookup_insert_ne. }
      split; [done|]. split; [done|]. split.
      * intros _. destruct (decide ("name" ∈ l.*1)) as [Hin|Hout]; [by apply H3|].
        destruct (H4 Hout) as [-> ->].
        by rewrite lookup_insert_eq, lookup_delete_eq.
      * intros Hout. exfalso. apply Hout. by left.
    + assert (Hk : k <> "name") by (intros ->; discriminate).
      destruct (IH a nt Hl' Ha Hnt) as (H1 & H2 & H3 & H4).
      split; [done|]. split; [done|]. split.
      * intros [?|Hin]%elem_of_cons; [congruence | by apply H3].
      * intros Hout. apply H4. intros Hin. apply Hout. by right.
    + destruct (IH (delete (String "s" t) a) (<[String "s" t' := x]> nt) Hl')
        as (H1 & H2 & H3 & H4).
      { by rewrite lookup_delete_ne. }
      { by rewrite lookup_insert_ne. }
      split; [done|]. split; [done|]. split.
      * intros [?|Hin]%elem_of_cons; [discriminate | by apply H3].
      * intros Hout. destruct H4 as [-> ->].
        { intros Hin. apply Hout. by right. }
        by rewrite lookup_insert_ne, lookup_delete_ne.
Qed.

(** C6. In the step from version 0 to version 1, a value the record already
    holds at [metadata.0.name] is kept as it is, and the rename of [name]
    onto it is skipped: the key [name] (every key that starts with [name])
    keeps its value, whatever order the attributes are visited in. *)
Theorem C6_destination_not_overwritten (ist : InstanceState) (v0 : string) :
  Attributes ist !! "metadata.0.name" = Some v0 ->
  let ist' := (migrateStateV0toV1 ist).1 in
  Attributes ist' !! "metadata.0.name" = Some v0
  /\ Attributes ist' !! "name" = Attributes ist !! "name"
  /\ (forall k, strings.HasPrefix k "name" = true ->
                Attributes ist' !! k = Attributes ist !! k)
  /\ (migrateStateV0toV1 ist).2 = None.
Proof.
  intros Hdst ist'. subst ist'.
  rewrite migrateStateV0toV1_attributes.
  destruct (visit_loop_keeps_destination (Attributes ist) v0
              (range (Attributes ist)) Hdst) as (Ha & Hnt & Hnames).
  assert (Hkeep : forall k, strings.HasPrefix k "name" = true ->
            ((foldl migrateV0toV1_visit (Attributes ist, ∅) (range (Attributes ist))).2
             ∪ (foldl migrateV0toV1_visit (Attributes ist, ∅) (range (Attributes ist))).1)
              !! k = Attributes ist !! k).
  { intros k Hk. destruct (Hnames k Hk) as [Hk1 Hk2].
    rewrite lookup_union_r by done. done. }
  split; [by rewrite lookup_union_r|].
  split; [by apply Hkeep|]. split; [done|].
  unfold migrateStateV0toV1. by destruct (foldl _ _ _).
Qed.

(** Called with version 0 on a record that is not empty, the entry point
    is the step from version 0 to version 1 and nothing more. *)
Lemma upgrader_v0_single_step (ist : InstanceState) :
  Empty ist = false ->
  resourceKubernetesDeploymentStateUpgrader 0 ist = migrateStateV0toV1 ist.
Proof.
  intros Hne. unfold resourceKubernetesDeploymentStateUpgrader. by rewrite Hne.
Qed.

(** A key that is neither [metadata.0.name] nor below [spec.0.template] is
    not added by the loop. *)
Lemma visit_loop_adds_no_other_key (key : string) (attrs : gmap string string)
    (l : list (string * string)) :
  strings.HasPrefix key "spec.0.template" = false -> key <> dst ->
  attrs !! key = None ->
  let r := foldl migrateV0toV1_visit (attrs, ∅) l in
  r.1 !! key = None /\ r.2 !! key = None.
Proof.
  intros Hkey Hdst Hnone.
  apply (foldl_invariant
    (fun r : gmap string string * gmap string string =>
       r.1 !! key = None /\ r.2 !! key = None)).
  - split; [done | apply lookup_empty].
  - intros [a nt] [k v] [Ha Hnt]. simpl in Ha, Hnt.
    destruct (migrateV0toV1_visit_cases a nt k v)
      as [(_ & _ & ->) | [(_ & _ & ->) | [(_ & ->) | (t & t' & -> & Hnew & ->)]]];
      [done | | done |]; simpl.
    + split; [by apply lookup_delete_None; right|]. by rewrite lookup_insert_ne.
    + split; [by apply lookup_delete_None; right|].
      rewrite lookup_insert_ne; [done|]. intros <-. congruence.
Qed.

(** For a record of version 0 that is not empty, the entry point adds no
    key other than [metadata.0.name] and keys below [spec.0.template]: a
    default of version 2 that the record lacks is still lacking. *)
Lemma upgrader_v0_adds_no_other_key (ist : InstanceState) (key : string) :
  Empty ist = false ->
  strings.HasPrefix key "spec.0.template" = false -> key <> "metadata.0.name" ->
  Attributes ist !! key = None ->
  Attributes (resourceKubernetesDeploymentStateUpgrader 0 ist).1 !! key = None.
Proof.
  intros Hne Hkey Hdst Hnone.
  rewrite upgrader_v0_single_step, migrateStateV0toV1_attributes by done.
  destruct (visit_loop_adds_no_other_key key (Attributes ist) (range (Attributes ist))
              Hkey Hdst Hnone) as [Ha Hnt].
  by apply lookup_union_None.
Qed.

(** C7, as the code has it. For a version 0 record (not empty) that holds a
    value at [name], holds none at [metadata.0.name], and has no other key
    that starts with [name]: after the migration the value is at
    [metadata.0.name] and the key [name] is gone. *)
Theorem C7_name_moved_when_destination_free (ist : InstanceState) (v : string) :
  range_complete R ->
  Empty ist = false ->
  Attributes ist !! "name" = Some v ->
  Attributes ist !! "metadata.0.name" = None ->
  (forall k, is_Some (Attributes ist !! k) ->
             strings.HasPrefix k "name" = true -> k = "name") ->
  let ist' := (resourceKubernetesDeploymentStateUpgrader 0 ist).1 in
  Attributes ist' !! "metadata.0.name" = Some v
  /\ Attributes ist' !! "name" = None.
Proof.
  intros Hrange Hne Hname Hfree Honly ist'. subst ist'.
  rewrite upgrader_v0_single_step, migrateStateV0toV1_attributes by done.
  assert (Hin : forall k x, (k, x) ∈ range (Attributes ist) -> Attributes ist !! k = Some x).
  { intros k x Hkx. apply elem_of_map_to_list. by rewrite <- (Hrange (Attributes ist)). }
  destruct (visit_loop_moves_name v (range (Attributes ist)) (Attributes ist) ∅)
    as (H1 & H2 & H3 & _).
  - intros k x Hkx Hk. pose proof (Hin k x Hkx) as Hx.
    assert (k = "name") as -> by (apply Honly; eauto).
    split; [done | congruence].
  - done.
  - apply lookup_empty.
  - destruct H3 as [H3 H4].
    { apply list_elem_of_fmap. exists ("name", v). split; [done|].
      rewrite (Hrange (Attributes ist)). by apply elem_of_map_to_list. }
    split.
    + by apply lookup_union_Some_l.
    + by apply lookup_union_None.
Qed.


(** C2, as the code has it. Called with version 2, the entry point returns
    the record as it is; there is no error only when the record is empty,
    any other record comes with the error for an unexpected version. *)
Theorem C2_latest_version_unchanged_with_error (ist : InstanceState) :
  (resourceKubernetesDeploymentStateUpgrader 2 ist).1 = ist
  /\ (resourceKubernetesDeploymentStateUpgrader 2 ist).2 =
       if Empty ist then None
       else Some (Errorf "Unexpected schema version: %d" [ArgInt 2]).
Proof.
  unfold resourceKubernetesDeploymentStateUpgrader.
  by destruct (Empty ist).
Qed.

End MigratorFacts.

(** C1. The code at a version 0 record: the entry point returns without an
    error after the step to version 1; the keys are relocated, the defaults
    of version 2 are not there. *)
Theorem C1_v0_record_stops_at_v1 :
  let r := @resourceKubernetesDeploymentStateUpgrader plain_runtime 0 record_v0 in
  Empty (Runtime := plain_runtime) record_v0 = false
  /\ r.2 = None
  /\ Attributes r.1 !! "name" = None
  /\ Attributes r.1 !! "metadata.0.name" = Some "web"
  /\ Attributes r.1 !! "spec.0.template.0.hostname" = None
  /\ Attributes r.1 !! "spec.0.template.0.spec.0.hostname" = Some "h"
  /\ Attributes r.1 !! "spec.0.paused" = None
  /\ Attributes r.1 !! "spec.0.progress_deadline_seconds" = None.
Proof. vm_compute. repeat split. Qed.

(** Feeding the result to the entry point again, as version 1, gives what
    C1 describes. *)
Lemma v0_record_after_both_steps :
  let r1 := @resourceKubernetesDeploymentStateUpgrader plain_runtime 0 record_v0 in
  let r2 := @resourceKubernetesDeploymentStateUpgrader plain_runtime 1 r1.1 in
  Attributes r2.1 !! "metadata.0.name" = Some "web"
  /\ Attributes r2.1 !! "spec.0.paused" = Some "false"
  /\ Attributes r2.1 !! "spec.0.progress_deadline_seconds" = Some "600".
Proof. vm_compute. repeat split. Qed.

(** C2 fails as stated: a record of version 2 that is not empty comes back
    with an error. *)
Lemma C2_counterexample :
  Empty (Runtime := plain_runtime) record_v2 = false
  /\ (@resourceKubernetesDeploymentStateUpgrader plain_runtime 2 record_v2).2
     = Some (Errorf "Unexpected schema version: %d" [ArgInt 2]).
Proof. vm_compute. by split. Qed.

(** C7 fails as stated: with a value at [metadata.0.name] already, the value
    of [name] stays at [name], both keys are present after the migration,
    and [metadata.0.name] does not hold that value. *)
Lemma C7_counterexample :
  let r := @resourceKubernetesDeploymentStateUpgrader plain_runtime 0 record_both in
  Attributes record_both !! "name" = Some "web"
  /\ Attributes r.1 !! "name" = Some "web"
  /\ Attributes r.1 !! "metadata.0.name" = Some "api".
Proof. vm_compute. repeat split. Qed.

Lemma C7_witness :
  Attributes (@resourceKubernetesDeploymentStateUpgrader plain_runtime 0 record_v0).1
    !! "metadata.0.name" = Some "web"
  /\ Attributes (@resourceKubernetesDeploymentStateUpgrader plain_runtime 0 record_v0).1
       !! "name" = None.
Proof.
  apply (@C7_name_moved_when_destination_free plain_runtime record_v0 "web").
  - intros m. reflexivity.
  - vm_compute. reflexivity.
  - vm_compute. reflexivity.
  - vm_compute. reflexivity.
  - intros k [x Hk] Hp. simpl in Hk.
    apply lookup_insert_Some in Hk as [[<- _]|[_ Hk]]; [reflexivity|].
    apply lookup_insert_Some in Hk as [[<- _]|[_ Hk]]; [discriminate Hp|].
    apply lookup_singleton_Some in Hk as [<- _]. discriminate Hp.
Defined.

Lemma C6_witness :
  Attributes record_both !! "metadata.0.name" = Some "api"
  /\ Attributes (@migrateStateV0toV1 plain_runtime record_both).1 !! "metadata.0.name"
     = Some "api"
  /\ Attributes (@migrateStateV0toV1 plain_runtime record_both).1 !! "name" = Some "web".
Proof.
  assert (Hdst : Attributes record_both !! "metadata.0.name" = Some "api")
    by (vm_compute; reflexivity).
  destruct (@C6_destination_not_overwritten plain_runtime record_both "api" Hdst)
    as (H1 & H2 & _).
  split; [exact Hdst|]. split; [exact H1|].
  rewrite H2. vm_compute. reflexivity.
Defined.


(** ** Lifecycle operations *)

Section LifecycleFacts.
Context `{Opq : Opaque} {C : Clientset} {F : Framework} {H : Helpers}.
Local Open Scope list_scope.

Lemma api_run {A} (c : Call) (f : cluster -> A * cluster) (w : World) :
  api c f w = (Done (f (remote w)).1, after_call w c (f (remote w)).2).
Proof. unfold api, after_call. by destruct (f (remote w)). Qed.

Lemma isStatus404_iff (e : error) :
  isStatus404 e = true <-> exists msg, e = StatusError 404 msg.
Proof.
  split.
  - destruct e as [code msg| | |]; simpl; try discriminate.
    intros ->%Z.eqb_eq. eauto.
  - intros [msg ->]. reflexivity.
Qed.

Lemma exists_answer_of_get (gerr : option error) :
  exists_answer gerr
    match gerr with
    | Some e => if isStatus404 e then (false, None) else (true, gerr)
    | None => (true, gerr)
    end.
Proof.
  destruct gerr as [e|]; repeat split; try discriminate.
  - intros msg [= ->]. reflexivity.
  - intros e' [= <-] Hne. destruct (isStatus404 e) eqn:He; [|done].
    apply isStatus404_iff in He as [msg ->]. by destruct (Hne msg).
Qed.

(** C9. The role resource registers all five entry points, and its
    Create, Read and Update return nil in every world and leave the world
    as it is: no call is made, the record is not touched. *)
Theorem C9_role_create_read_update_do_nothing :
  (schema.Create resourceKubernetesRole = Some resourceKubernetesRoleCreate
   /\ schema.Read resourceKubernetesRole = Some resourceKubernetesRoleRead
   /\ schema.Update resourceKubernetesRole = Some resourceKubernetesRoleUpdate
   /\ schema.Delete resourceKubernetesRole = Some resourceKubernetesRoleDelete
   /\ schema.Exists resourceKubernetesRole = Some resourceKubernetesRoleExists)
  /\ forall w : World,
       resourceKubernetesRoleCreate w = (Done None, w)
       /\ resourceKubernetesRoleRead w = (Done None, w)
       /\ resourceKubernetesRoleUpdate w = (Done None, w).
Proof. split; [by repeat split|]. intros w. by repeat split. Qed.

(** C3. With the identity parsed into [ns] and [name]: the existence
    check of the deployment makes one Get and answers it as the
    specification says; so does the check of the role, which makes the Get
    when the identity was parsed without an error. *)
Theorem C3_exists_semantics (w : World) (ns name : string) (perr : option error) :
  idParts (Id (data w)) = (ns, name, perr) ->
  (forall dep gerr c', DeploymentsGet ns name (remote w) = ((dep, gerr), c') ->
     exists r, resourceKubernetesDeploymentExists w
               = (Done r, after_call w (CallDeploymentsGet ns name) c')
               /\ exists_answer gerr r)
  /\ (perr = None ->
      forall role gerr c', RolesGet ns name (remote w) = ((role, gerr), c') ->
        exists r, resourceKubernetesRoleExists w
                  = (Done r, after_call w (CallRolesGet ns name) c')
                  /\ exists_answer gerr r).
Proof.
  intros Hid. split.
  - intros dep gerr c' Hget. eexists. split; [|apply (exists_answer_of_get gerr)].
    unfold resourceKubernetesDeploymentExists, bind, get_d, Deployments_Get.
    rewrite Hid, api_run, Hget. simpl.
    by destruct gerr as [e|]; [destruct (isStatus404 e)|].
  - intros -> role gerr c' Hget. eexists. split; [|apply (exists_answer_of_get gerr)].
    unfold resourceKubernetesRoleExists, bind, get_d, Roles_Get.
    rewrite Hid, api_run, Hget. simpl.
    by destruct gerr as [e|]; [destruct (isStatus404 e)|].
Qed.

(** C4. One tick of the wait, with the answer of the Get at hand. An error
    of the Get comes back as an error that is not retryable, and [Retry]
    returns it from that very tick. Without an error (and with a desired
    count in the object), the tick returns nil exactly when the observed
    count equals the desired one, and otherwise a retryable error that
    carries both counts. *)
Theorem C4_wait_tick (w : World) (ns name : string)
    (dep : Deployment) (gerr : option error) (c' : cluster) :
  DeploymentsGet ns name (remote w) = ((dep, gerr), c') ->
  let w' := after_call w (CallDeploymentsGet ns name) c' in
  (forall e, gerr = Some e ->
     waitForDeploymentReplicasFunc ns name w
     = (Done (Some {| Err := e; Retryable := false |}), w')
     /\ forall polls, Retry (S polls) (waitForDeploymentReplicasFunc ns name) w
                      = (Done (Some e), w'))
  /\ (gerr = None -> forall desired, Replicas (Spec dep) = Some desired ->
      (waitForDeploymentReplicasFunc ns name w = (Done None, w')
       <-> StatusReplicas (Status dep) = desired)
      /\ (StatusReplicas (Status dep) <> desired ->
          waitForDeploymentReplicasFunc ns name w
          = (Done (Some {| Err := Errorf "Waiting for %d replicas of %q to be scheduled (%d)"
                                   [ArgInt desired; ArgString (GetName dep);
                                    ArgInt (StatusReplicas (Status dep))];
                           Retryable := true |}), w'))).
Proof.
  intros Hget w'. subst w'.
  assert (Htick : waitForDeploymentReplicasFunc ns name w =
    match gerr with
    | Some e => ret (NonRetryableError (Some e))
    | None =>
        match Replicas (Spec dep) with
        | None => panic "nil pointer dereference"
        | Some desiredReplicas =>
            if StatusReplicas (Status dep) =? desiredReplicas then ret None
            else ret (RetryableError (Some
                   (Errorf "Waiting for %d replicas of %q to be scheduled (%d)"
                      [ArgInt desiredReplicas; ArgString (GetName dep);
                       ArgInt (StatusReplicas (Status dep))])))
        end
    end (after_call w (CallDeploymentsGet ns name) c')).
  { unfold waitForDeploymentReplicasFunc, bind, Deployments_Get.
    by rewrite api_run, Hget. }
  split.
  - intros e ->. split; [exact Htick|].
    intros polls. unfold Retry. cbn [retry_loop]. unfold bind at 1.
    by rewrite Htick.
  - intros -> desired Hdesired. rewrite Htick, Hdesired.
    destruct (Z.eqb_spec (StatusReplicas (Status dep)) desired) as [Heq|Hne].
    + split; [done|]. by intros [].
    + split; [|done]. split; [discriminate | done].
Qed.

Lemma wait_tick_run (ns name : string) (w : World) :
  exists out c',
    waitForDeploymentReplicasFunc ns name w
    = (out, after_call w (CallDeploymentsGet ns name) c')
    /\ (out = Done None -> converged_at ns name (remote w) c').
Proof.
  unfold waitForDeploymentReplicasFunc, bind, Deployments_Get.
  rewrite api_run.
  destruct (DeploymentsGet ns name (remote w)) as [[dep gerr] c'] eqn:Hget.
  simpl. destruct gerr as [e|].
  { eexists _, c'. split; [reflexivity | discriminate]. }
  destruct (Replicas (Spec dep)) as [desired|] eqn:Hdesired.
  2: { eexists _, c'. split; [reflexivity | discriminate]. }
  destruct (Z.eqb_spec (StatusReplicas (Status dep)) desired) as [Heq|Hne].
  - eexists _, c'. split; [reflexivity|]. intros _. exists dep. by subst.
  - eexists _, c'. split; [reflexivity | discriminate].
Qed.

(** The wait makes nothing but polls, and returns nil only from a poll
    that found the counts equal. *)
Lemma retry_loop_run (ns name : string) (polls : nat) :
  forall (last : option error) (w : World),
  exists out n c',
    retry_loop polls (waitForDeploymentReplicasFunc ns name) last w
    = (out, after_polls w ns name n c')
    /\ (out = Done None -> exists m c, n = S m /\ converged_at ns name c c').
Proof.
  induction polls as [|polls IH]; intros last w; cbn [retry_loop].
  - exists (Done (Some (TimeoutError last))), 0%nat, (remote w).
    split; [|discriminate].
    unfold ret, after_polls. destruct w. simpl. by rewrite app_nil_r.
  - unfold bind at 1.
    destruct (wait_tick_run ns name w) as (out & c1 & -> & Hconv).
    assert (Hone : after_call w (CallDeploymentsGet ns name) c1
                   = after_polls w ns name 1 c1) by reflexivity.
    destruct out as [[re|]|msg].
    + destruct (Retryable re).
      * destruct (IH (Some (Err re)) (after_call w (CallDeploymentsGet ns name) c1))
          as (out & n & c2 & -> & Hout).
        exists out, (S n), c2. split.
        { unfold after_polls, after_call. simpl. by rewrite <- app_assoc. }
        intros Hnil. destruct (Hout Hnil) as (m & c & -> & Hc). eauto.
      * exists (Done (Some (Err re))), 1%nat, c1. split; [by rewrite Hone | discriminate].
    + exists (Done None), 1%nat, c1. split; [by rewrite Hone|].
      intros _. exists 0%nat, (remote w). split; [done|]. by apply Hconv.
    + exists (Panicked msg), 1%nat, c1. split; [by rewrite Hone | discriminate].
Qed.


(** *** Operations only add calls *)

Lemma calls_grow_ret {A} (a : A) : calls_grow (ret a).
Proof. intros w. exists []. simpl. by rewrite app_nil_r. Qed.

Lemma calls_grow_panic {A} (msg : string) : calls_grow (panic (A := A) msg).
Proof. intros w. exists []. simpl. by rewrite app_nil_r. Qed.

Lemma calls_grow_get_d : calls_grow get_d.
Proof. intros w. exists []. simpl. by rewrite app_nil_r. Qed.

Lemma calls_grow_put_d (d : ResourceData) : calls_grow (put_d d).
Proof. intros w. exists []. simpl. by rewrite app_nil_r. Qed.

Lemma calls_grow_api {A} (c : Call) (f : cluster -> A * cluster) : calls_grow (api c f).
Proof. intros w. exists [c]. by rewrite api_run. Qed.

Lemma calls_grow_bind {A B} (m : M A) (k : A -> M B) :
  calls_grow m -> (forall a, calls_grow (k a)) -> calls_grow (bind m k).
Proof.
  intros Hm Hk w. unfold bind. destruct (Hm w) as [r1 Hr1].
  destruct (m w) as [[a|msg] w1]; simpl in Hr1.
  - destruct (Hk a w1) as [r2 Hr2]. exists (r1 ++ r2).
    by rewrite Hr2, Hr1, app_assoc.
  - by exists r1.
Qed.

Ltac grow_step :=
  first
    [ apply calls_grow_ret | apply calls_grow_panic | apply calls_grow_get_d
    | apply calls_grow_put_d | apply calls_grow_api
    | apply calls_grow_bind; [|intros ?]
    | progress intros
    | case_match ].

Ltac grow := repeat grow_step.

Lemma calls_grow_SetId (id : string) : calls_grow (SetId id).
Proof. unfold SetId. grow. Qed.

Lemma calls_grow_d_Set (key : string) (value : iface) : calls_grow (d_Set key value).
Proof. unfold d_Set. grow. Qed.

Lemma calls_grow_wait (ns name : string) :
  calls_grow (waitForDeploymentReplicasFunc ns name).
Proof. unfold waitForDeploymentReplicasFunc, Deployments_Get. grow. Qed.

Lemma calls_grow_Retry (polls : nat) (f : M (option RetryError)) :
  calls_grow f -> calls_grow (Retry polls f).
Proof.
  intros Hf. unfold Retry. generalize (@None error).
  induction polls as [|polls IH]; intros last; cbn [retry_loop]; grow; auto.
Qed.

Lemma calls_grow_Read : calls_grow resourceKubernetesDeploymentRead.
Proof.
  unfold resourceKubernetesDeploymentRead, Deployments_Get.
  grow; apply calls_grow_d_Set.
Qed.


(** *** The error of the identity parser *)


Lemma Read_calls (w : World) (ns name : string) (perr : option error) :
  idParts (Id (data w)) = (ns, name, perr) ->
  calls (resourceKubernetesDeploymentRead w).2 = calls w ++ [CallDeploymentsGet ns name].
Proof.
  intros Hid. unfold resourceKubernetesDeploymentRead.
  unfold bind at 1. unfold get_d at 1. rewrite Hid.
  unfold bind at 1. unfold Deployments_Get. rewrite api_run.
  destruct (DeploymentsGet ns name (remote w)) as [[dep [e|]] c1]; cbn [fst snd]; [done|].
  unfold d_Set, bind, get_d, put_d, ret.
  repeat (case_match; simplify_eq; cbn [fst snd calls data remote] in *); done.
Qed.




Lemma bind_get_d {A} (k : ResourceData -> M A) (w : World) :
  bind get_d k w = k (data w) w.
Proof. reflexivity. Qed.








End LifecycleFacts.

(** ** The operations in the sample world *)

Section SampleRuns.
Import Sample.

Lemma C3_witness :
  exists r,
    resourceKubernetesDeploymentExists (H := helpers) web
    = (Done r, after_call web (CallDeploymentsGet "default" "web") (settle running))
    /\ exists_answer None r.
Proof.
  destruct (C3_exists_semantics (H := helpers) web "default" "web" None eq_refl)
    as [Hdeployment _].
  apply (Hdeployment (deployment_of running) None (settle running)).
  reflexivity.
Defined.

Lemma C4_witness :
  waitForDeploymentReplicasFunc "default" "web" web
  = (Done None, after_call web (CallDeploymentsGet "default" "web") (settle running)).
Proof.
  destruct (C4_wait_tick web "default" "web" (deployment_of running) None (settle running)
              eq_refl) as [_ Hok].
  destruct (Hok eq_refl 3 eq_refl) as [[_ Hnil] _].
  apply Hnil. reflexivity.
Defined.



End SampleRuns.

(** * Further properties *)

(** ** Relocation of keys *)

Section Relocation.

Lemma append_cons (a : ascii) (p t : string) : String a p ++ t = String a (p ++ t).
Proof. reflexivity. Qed.

Lemma prefix_app_self (p t : string) : String.prefix p (p ++ t) = true.
Proof.
  induction p as [|a p IH]; [apply prefix_nil|].
  rewrite append_cons. apply prefix_cons. by split.
Qed.

Lemma drop_app_length (p t : string) : strings.drop (String.length p) (p ++ t) = t.
Proof.
  induction p as [|a p IH]; [done|].
  simpl String.length. rewrite append_cons. cbn [strings.drop]. exact IH.
Qed.

Lemma prefix_drop (p s : string) :
  String.prefix p s = true -> p ++ strings.drop (String.length p) s = s.
Proof.
  revert s. induction p as [|a p IH]; intros [|b s] Hp; try done.
  apply prefix_cons in Hp as [-> Hp]. simpl String.length. cbn [strings.drop].
  rewrite append_cons. f_equal. by apply IH.
Qed.

Lemma prefix_length (p s : string) :
  String.prefix p s = true -> (String.length p <= String.length s)%nat.
Proof.
  revert s. induction p as [|a p IH]; intros [|b s] Hp; simpl; try lia; try done.
  apply prefix_cons in Hp as [_ Hp]. specialize (IH s Hp). lia.
Qed.

(** A prefix of the result of [Replace1] that is no longer than [old] is a
    prefix of [s], when [new] starts with [old]. *)
Lemma Replace1_reflects_prefix (old new : string) :
  String.prefix old new = true ->
  forall s p : string,
  String.prefix p (strings.Replace1 s old new) = true ->
  (String.length p <= String.length old)%nat ->
  String.prefix p s = true.
Proof.
  intros Hnew. induction s as [|c s IH]; intros p Hp Hlen.
  - cbn [strings.Replace1] in Hp. destruct (String.prefix old "") eqn:Hold; [|done].
    apply prefix_trans with old; [|done].
    apply prefix_of_longer with new; [|done|done].
    eapply prefix_of_longer; [exact Hp | apply prefix_app_self|].
    pose proof (prefix_length _ _ Hnew). lia.
  - cbn [strings.Replace1] in Hp. destruct (String.prefix old (String c s)) eqn:Hold.
    + apply prefix_trans with old; [|done].
      apply prefix_of_longer with new; [|done|done].
      eapply prefix_of_longer; [exact Hp | apply prefix_app_self|].
      pose proof (prefix_length _ _ Hnew). lia.
    + destruct p as [|a p]; [apply prefix_nil|].
      apply prefix_cons in Hp as [-> Hp]. apply prefix_cons. split; [done|].
      apply IH; [done | simpl in Hlen; lia].
Qed.

Lemma Replace1_at_head (s old new : string) :
  String.prefix old s = true ->
  strings.Replace1 s old new = new ++ strings.drop (String.length old) s.
Proof. intros Hp. destruct s; cbn [strings.Replace1]; by rewrite Hp. Qed.

(** Replacing [old] by a string that starts with [old], and then that
    string by [old], gives the string one started from. *)
Lemma Replace1_round_trip (old ext s : string) :
  strings.Replace1 (strings.Replace1 s old (old ++ ext)) (old ++ ext) old = s.
Proof.
  assert (Hnew : String.prefix old (old ++ ext) = true) by apply prefix_app_self.
  assert (Hhead : forall s, String.prefix old s = true ->
            strings.Replace1 (strings.Replace1 s old (old ++ ext)) (old ++ ext) old = s).
  { intros s' Hold. rewrite (Replace1_at_head s') by done.
    rewrite Replace1_at_head by apply prefix_app_self.
    rewrite drop_app_length. by apply prefix_drop. }
  induction s as [|c s IH].
  - destruct (String.prefix old "") eqn:Hold; [by apply Hhead|].
    cbn [strings.Replace1]. rewrite Hold. cbn [strings.Replace1].
    destruct (String.prefix (old ++ ext) "") eqn:Hn; [|done].
    by rewrite (prefix_trans _ _ _ Hnew Hn) in Hold.
  - destruct (String.prefix old (String c s)) eqn:Hold; [by apply Hhead|].
    cbn [strings.Replace1]. rewrite Hold. cbn [strings.Replace1].
    destruct (String.prefix (old ++ ext)
                (String c (strings.Replace1 s old (old ++ ext)))) eqn:Hn.
    + exfalso. pose proof (prefix_trans _ _ _ Hnew Hn) as Ho.
      destruct old as [|a old']; [by rewrite prefix_nil in Hold|].
      apply prefix_cons in Ho as [-> Ho].
      apply (Replace1_reflects_prefix _ _ Hnew) in Ho; [|simpl; lia].
      assert (String.prefix (String c old') (String c s) = true)
        by (by apply prefix_cons).
      congruence.
    + by rewrite IH.
Qed.

End Relocation.

(** ** The step from version 0 to version 1, key by key *)

Section StepV0V1.
Context {R : Runtime}.

Local Abbreviation dst := "metadata.0.name" (only parsing).

(** The visit, with its tests named. *)
Lemma migrateV0toV1_visit_moves (a nt : gmap string string) (k v : string) :
  migrateV0toV1_visit (a, nt) (k, v)
  = if moves (bool_decide (a !! dst = None)) k
    then (delete k a, <[target k := v]> nt) else (a, nt).
Proof.
  unfold migrateV0toV1_visit, moves, target, template_key, name_key, relocated.
  destruct (strings.HasPrefix k "name").
  - destruct (decide (is_Some (a !! dst))) as [Hs|Hn].
    + rewrite bool_decide_eq_false_2; [done|].
      intros Hnone. rewrite Hnone in Hs. by destruct Hs.
    + rewrite bool_decide_eq_true_2; [done|]. by apply eq_None_not_Some.
  - cbn [negb andb]. destruct (strings.HasPrefix k "spec.0.template"); [|done].
    cbn [negb andb]. by destruct (_ || _).
Qed.

Lemma moves_not_destination (free : bool) (k : string) : moves free k = true -> k <> dst.
Proof. intros Hm ->. by destruct free. Qed.

Lemma template_key_prefix (k : string) :
  template_key k = true ->
  name_key k = false /\ strings.HasPrefix k "spec.0.template" = true
  /\ strings.HasPrefix k "spec.0.template.0.spec" = false.
Proof.
  unfold template_key, name_key. intros Hk.
  apply andb_prop in Hk as [Hk Hno]. apply andb_prop in Hk as [Hname Htpl].
  apply negb_true_iff in Hname. apply negb_true_iff in Hno.
  apply orb_false_elim in Hno as [Hspec _]. done.
Qed.

Lemma relocated_inj (k1 k2 : string) : relocated k1 = relocated k2 -> k1 = k2.
Proof.
  intros Heq.
  assert (Hback : forall k,
    strings.Replace1 (relocated k) "spec.0.template.0.spec.0" "spec.0.template.0" = k)
    by (intros k; apply (Replace1_round_trip "spec.0.template.0" ".spec.0" k)).
  rewrite <- (Hback k1) at 1. by rewrite Heq, Hback.
Qed.

Lemma relocated_below_template (k : string) :
  template_key k = true -> strings.HasPrefix (relocated k) "spec.0.template" = true.
Proof. intros (_ & Htpl & _)%template_key_prefix. by apply moved_key_prefix. Qed.

(** Two different keys that are moved go to different keys, unless both
    start with [name]. *)
Lemma target_inj (free : bool) (k1 k2 : string) :
  moves free k1 = true -> moves free k2 = true ->
  name_key k1 && name_key k2 = false ->
  target k1 = target k2 -> k1 = k2.
Proof.
  unfold moves, target. intros H1 H2 Hnames Heq.
  destruct (name_key k1) eqn:N1, (name_key k2) eqn:N2; try done.
  - apply relocated_below_template in H2. by rewrite <- Heq in H2.
  - apply relocated_below_template in H1. by rewrite Heq in H1.
  - by apply relocated_inj.
Qed.

(** The loop never touches the binding of [metadata.0.name] in the
    attributes themselves. *)
Lemma visit_keeps_destination_binding (a nt : gmap string string) (kv : string * string) :
  (migrateV0toV1_visit (a, nt) kv).1 !! dst = a !! dst.
Proof.
  destruct kv as [k v]. rewrite migrateV0toV1_visit_moves.
  destruct (moves _ k) eqn:Hm; [|done].
  simpl. apply lookup_delete_ne. by apply moves_not_destination in Hm.
Qed.

Lemma visit_loop_keeps_destination_binding (l : list (string * string))
    (a nt : gmap string string) :
  (foldl migrateV0toV1_visit (a, nt) l).1 !! dst = a !! dst.
Proof.
  revert a nt. induction l as [|kv l IH]; intros a nt; [done|].
  cbn [foldl]. destruct (migrateV0toV1_visit (a, nt) kv) as [a1 nt1] eqn:Hv.
  rewrite IH. pose proof (visit_keeps_destination_binding a nt kv) as Hk.
  by rewrite Hv in Hk.
Qed.

(** No attribute is moved onto a template key that starts with
    [spec.0.template.0]. *)
Lemma relocated_not_onto (k k0 : string) :
  template_key k0 = true -> strings.HasPrefix k0 "spec.0.template.0" = true ->
  relocated k <> k0.
Proof.
  intros (_ & _ & Hspec)%template_key_prefix Hold Heq. subst k0.
  unfold strings.HasPrefix, relocated in Hold.
  apply (Replace1_reflects_prefix "spec.0.template.0" "spec.0.template.0.spec.0" eq_refl)
    in Hold; [|done].
  unfold relocated in Hspec. rewrite (Replace1_at_head k) in Hspec by done.
  unfold strings.HasPrefix in Hspec.
  by rewrite (prefix_app "spec.0.template.0.spec" "spec.0.template.0.spec.0") in Hspec.
Qed.

(** What the loop does with the template key [k0], bound to [v0]. *)
Lemma visit_loop_moves_template (k0 v0 : string) (l : list (string * string)) :
  template_key k0 = true ->
  forall a nt : gmap string string,
  (forall x, (k0, x) ∈ l -> x = v0) ->
  let r := foldl migrateV0toV1_visit (a, nt) l in
  ((k0 ∈ l.*1 \/ nt !! relocated k0 = Some v0) -> r.2 !! relocated k0 = Some v0)
  /\ ((k0 ∈ l.*1 \/ a !! k0 = None) -> r.1 !! k0 = None)
  /\ (strings.HasPrefix k0 "spec.0.template.0" = true -> nt !! k0 = None ->
      r.2 !! k0 = None).
Proof.
  intros Hk0. pose proof (template_key_prefix _ Hk0) as (Hname0 & Htpl0 & _).
  assert (Hdst0 : k0 <> dst) by (by intros ->).
  assert (Hdst1 : relocated k0 <> dst).
  { intros Heq. pose proof (relocated_below_template _ Hk0) as Hp. by rewrite Heq in Hp. }
  induction l as [|[k x] l IH]; intros a nt Hfun; cbn [foldl]; rewrite ?fmap_cons; cbn [fst].
  - split; [|split].
    + intros [Hin|Hnt]; [by apply elem_of_nil in Hin | done].
    + intros [Hin|Ha]; [by apply elem_of_nil in Hin | done].
    + done.
  - assert (Hfun' : forall x, (k0, x) ∈ l -> x = v0) by (intros y Hy; apply Hfun; by right).
    rewrite migrateV0toV1_visit_moves.
    destruct (moves _ k) eqn:Hm.
    + destruct (IH (delete k a) (<[target k := x]> nt) Hfun') as (H1 & H2 & H3).
      destruct (decide (k = k0)) as [->|Hne].
      * assert (x = v0) as -> by (apply Hfun; by left).
        assert (Ht : target k0 = relocated k0) by (unfold target; by rewrite Hname0).
        rewrite Ht in *.
        split; [|split].
        -- intros _. apply H1. right. by rewrite lookup_insert_eq.
        -- intros _. apply H2. right. by rewrite lookup_delete_eq.
        -- intros Hold Hnt. apply H3; [done|].
           rewrite lookup_insert_ne; [done|]. by apply relocated_not_onto.
      * assert (Ht : target k <> relocated k0).
        { unfold target. unfold moves in Hm. destruct (name_key k) eqn:Hn.
          - intros Heq. apply Hdst1. by rewrite Heq.
          - intros Heq. by apply relocated_inj in Heq. }
        split; [|split].
        -- intros [[?|Hin]%elem_of_cons|Hnt]; [done | by apply H1; left |].
           apply H1. right. by rewrite lookup_insert_ne.
        -- intros [[?|Hin]%elem_of_cons|Ha]; [done | by apply H2; left |].
           apply H2. right. by rewrite lookup_delete_ne.
        -- intros Hold Hnt. apply H3; [done|].
           rewrite lookup_insert_ne; [done|].
           unfold target. unfold moves in Hm. destruct (name_key k) eqn:Hn.
           ++ intros Heq. apply Hdst0. by rewrite Heq.
           ++ by apply relocated_not_onto.
    + destruct (IH a nt Hfun') as (H1 & H2 & H3).
      assert (Hne : k <> k0).
      { intros ->. unfold moves in Hm. rewrite Hname0 in Hm. congruence. }
      split; [|split].
      * intros [[?|Hin]%elem_of_cons|Hnt]; [done | by apply H1; left | by apply H1; right].
      * intros [[?|Hin]%elem_of_cons|Ha]; [done | by apply H2; left | by apply H2; right].
      * done.
Qed.

(** The attribute of a template key is found at the key it is moved to
    after the step, whatever the record held there; and when the key starts
    with [spec.0.template.0], it is no longer found at its old key. *)
Theorem template_attribute_relocated (ist : InstanceState) (k v : string) :
  range_complete R ->
  template_key k = true ->
  Attributes ist !! k = Some v ->
  let ist' := (migrateStateV0toV1 ist).1 in
  Attributes ist' !! relocated k = Some v
  /\ (strings.HasPrefix k "spec.0.template.0" = true -> Attributes ist' !! k = None).
Proof.
  intros Hrange Hk Hv ist'. subst ist'. rewrite migrateStateV0toV1_attributes.
  assert (Hin : forall x, (k, x) ∈ range (Attributes ist) -> x = v).
  { intros x Hx. rewrite (Hrange (Attributes ist)) in Hx.
    apply elem_of_map_to_list in Hx. congruence. }
  assert (Hk_in : k ∈ (range (Attributes ist)).*1).
  { apply list_elem_of_fmap. exists (k, v). split; [done|].
    rewrite (Hrange (Attributes ist)). by apply elem_of_map_to_list. }
  destruct (visit_loop_moves_template k v (range (Attributes ist)) Hk (Attributes ist) ∅ Hin)
    as (H1 & H2 & H3).
  split.
  - apply lookup_union_Some_l. apply H1. by left.
  - intros Hold. apply lookup_union_None. split.
    + apply H3; [done | apply lookup_empty].
    + apply H2. by left.
Qed.

(** An attribute whose key neither starts with [name] nor is below
    [spec.0.template] nor is [metadata.0.name] has the same binding (or
    none) before and after the step, whatever the iteration order. *)
Theorem other_attributes_untouched (ist : InstanceState) (k : string) :
  name_key k = false ->
  strings.HasPrefix k "spec.0.template" = false ->
  k <> "metadata.0.name" ->
  Attributes (migrateStateV0toV1 ist).1 !! k = Attributes ist !! k.
Proof.
  intros Hname Htpl Hdst. rewrite migrateStateV0toV1_attributes.
  assert (Hinv : let r := foldl migrateV0toV1_visit (Attributes ist, ∅)
                            (range (Attributes ist)) in
                 r.1 !! k = Attributes ist !! k /\ r.2 !! k = None).
  { apply (foldl_invariant
      (fun r : gmap string string * gmap string string =>
         r.1 !! k = Attributes ist !! k /\ r.2 !! k = None)).
    - split; [done | apply lookup_empty].
    - intros [a nt] [k' v'] [Ha Hnt]. simpl in Ha, Hnt.
      rewrite migrateV0toV1_visit_moves. destruct (moves _ k') eqn:Hm; [|done].
      simpl. unfold moves, target in *. destruct (name_key k') eqn:Hn.
      + rewrite lookup_delete_ne by (intros ->; congruence).
        by rewrite lookup_insert_ne.
      + pose proof (template_key_prefix _ Hm) as (_ & Hp & _).
        pose proof (relocated_below_template _ Hm) as Hp'.
        rewrite lookup_delete_ne by (intros ->; congruence).
        rewrite lookup_insert_ne by (intros Heq; rewrite Heq in Hp'; congruence).
        done. }
  destruct Hinv as [Ha Hnt]. by rewrite lookup_union_r.
Qed.

(** When the key visited last starts with [name] and [metadata.0.name] is
    free, its value is the one found at [metadata.0.name] after the step:
    with several such keys the result depends on the iteration order. *)
Theorem last_name_key_wins (ist : InstanceState) (l : list (string * string))
    (k v : string) :
  range (Attributes ist) = (l ++ [(k, v)])%list ->
  name_key k = true ->
  Attributes ist !! "metadata.0.name" = None ->
  Attributes (migrateStateV0toV1 ist).1 !! "metadata.0.name" = Some v.
Proof.
  intros Hrange Hname Hfree. rewrite migrateStateV0toV1_attributes, Hrange, foldl_snoc.
  pose proof (visit_loop_keeps_destination_binding l (Attributes ist) ∅) as Hd.
  destruct (foldl migrateV0toV1_visit (Attributes ist, ∅) l) as [a nt]. simpl in Hd.
  rewrite migrateV0toV1_visit_moves. unfold moves, target. rewrite Hname, Hd, Hfree.
  rewrite bool_decide_eq_true_2 by done. simpl.
  apply lookup_union_Some_l, lookup_insert_eq.
Qed.




End StepV0V1.

(** ** The iteration order *)

Section IterationOrder.

Local Abbreviation dst := "metadata.0.name" (only parsing).

(** A fold over a permutation of the list gives the same result, when the
    steps for different elements commute on the states that keep [Inv]. *)
Lemma foldl_permutation_inv {A B} `{EqDecision B} (Inv : A -> Prop) (f : A -> B -> A)
    (l1 l2 : list B) :
  l1 ≡ₚ l2 ->
  (forall a x, x ∈ l1 -> Inv a -> Inv (f a x)) ->
  (forall a x y, x ∈ l1 -> y ∈ l1 -> x <> y -> Inv a -> f (f a x) y = f (f a y) x) ->
  forall a, Inv a -> foldl f a l1 = foldl f a l2.
Proof.
  induction 1 as [|x l l' Hl IH|x y l|l l' l'' H1 IH1 H2 IH2]; intros Hinv Hcomm a Ha.
  - done.
  - cbn [foldl]. apply IH.
    + intros a' z Hz. apply Hinv. by right.
    + intros a' z1 z2 Hz1 Hz2. apply Hcomm; by right.
    + apply Hinv; [by left | done].
  - cbn [foldl]. destruct (decide (x = y)) as [->|Hne]; [done|].
    f_equal. apply Hcomm; [by left | by right; left | by intros -> | done].
  - rewrite IH1 by done. apply IH2; [| |done].
    + intros a' z Hz. apply Hinv. by rewrite H1.
    + intros a' z1 z2 Hz1 Hz2. apply Hcomm; by rewrite H1.
Qed.

(** The visits of two different attributes of [attrs] commute, when at most
    one key of [attrs] starts with [name] or [metadata.0.name] is taken. *)
Lemma visits_commute (attrs a nt : gmap string string) (k1 v1 k2 v2 : string) :
  one_name_key attrs \/ is_Some (attrs !! dst) ->
  attrs !! k1 = Some v1 -> attrs !! k2 = Some v2 -> k1 <> k2 ->
  a !! dst = attrs !! dst ->
  migrateV0toV1_visit (migrateV0toV1_visit (a, nt) (k1, v1)) (k2, v2)
  = migrateV0toV1_visit (migrateV0toV1_visit (a, nt) (k2, v2)) (k1, v1).
Proof.
  intros Hnames H1 H2 Hne Ha.
  rewrite (migrateV0toV1_visit_moves a nt k1), (migrateV0toV1_visit_moves a nt k2).
  destruct (moves _ k1) eqn:M1, (moves _ k2) eqn:M2.
  - rewrite !migrateV0toV1_visit_moves.
    rewrite (lookup_delete_ne a k1) by (by eapply moves_not_destination).
    rewrite (lookup_delete_ne a k2) by (by eapply moves_not_destination).
    rewrite M1, M2. f_equal; [apply delete_delete|].
    apply insert_insert_ne. intros Heq. apply Hne.
    eapply target_inj; [exact M1 | exact M2 | | by symmetry].
    destruct (name_key k1) eqn:N1, (name_key k2) eqn:N2; try done.
    exfalso. unfold moves in M1. rewrite N1 in M1.
    apply bool_decide_eq_true_1 in M1. rewrite Ha in M1.
    destruct Hnames as [Hone|[x Hx]]; [|congruence].
    apply Hne. apply Hone; eauto.
  - rewrite !migrateV0toV1_visit_moves.
    rewrite (lookup_delete_ne a k1) by (by eapply moves_not_destination).
    by rewrite M1, M2.
  - rewrite !migrateV0toV1_visit_moves.
    rewrite (lookup_delete_ne a k2) by (by eapply moves_not_destination).
    by rewrite M1, M2.
  - rewrite !migrateV0toV1_visit_moves. by rewrite M1, M2.
Qed.

(** The step from version 0 to version 1 gives the same record for every
    iteration order, when at most one key starts with [name] or
    [metadata.0.name] already holds a value. *)
Theorem migration_order_independent (R1 R2 : Runtime) (ist : InstanceState) :
  range_complete R1 -> range_complete R2 ->
  one_name_key (Attributes ist) \/ is_Some (Attributes ist !! "metadata.0.name") ->
  migrateStateV0toV1 (R := R1) ist = migrateStateV0toV1 (R := R2) ist.
Proof.
  intros Hr1 Hr2 Hnames. unfold migrateStateV0toV1.
  assert (Hfold : foldl migrateV0toV1_visit (Attributes ist, ∅)
                    (range (Runtime := R1) (Attributes ist))
                  = foldl migrateV0toV1_visit (Attributes ist, ∅)
                      (range (Runtime := R2) (Attributes ist))).
  { apply (foldl_permutation_inv
             (fun r : gmap string string * gmap string string =>
                r.1 !! dst = Attributes ist !! dst)).
    - by rewrite (Hr1 (Attributes ist)), (Hr2 (Attributes ist)).
    - intros [a nt] kv _ Ha. by rewrite visit_keeps_destination_binding.
    - intros [a nt] [k1 v1] [k2 v2] Hx Hy Hne Ha. simpl in Ha.
      rewrite (Hr1 (Attributes ist)) in Hx, Hy.
      apply elem_of_map_to_list in Hx, Hy.
      apply (visits_commute (Attributes ist)); try done.
      intros ->. apply Hne. congruence.
    - done. }
  by rewrite Hfold.
Qed.

End IterationOrder.

(** ** The step from version 0 to version 1 on the sample records *)

Lemma reversed_runtime_complete : range_complete reversed_runtime.
Proof. intros m. simpl. apply reverse_Permutation. Qed.

Lemma record_v0_one_name_key : one_name_key (Attributes record_v0).
Proof.
  assert (Hname : forall k, is_Some (Attributes record_v0 !! k) ->
                            name_key k = true -> k = "name").
  { intros k [x Hk] Hp. simpl in Hk.
    apply lookup_insert_Some in Hk as [[<- _]|[_ Hk]]; [reflexivity|].
    apply lookup_insert_Some in Hk as [[<- _]|[_ Hk]]; [discriminate Hp|].
    apply lookup_singleton_Some in Hk as [<- _]. discriminate Hp. }
  intros k1 k2 H1 H2 N1 N2. by rewrite (Hname k1), (Hname k2).
Defined.

Lemma template_attribute_relocated_witness :
  Attributes (@migrateStateV0toV1 plain_runtime record_collision).1
    !! "spec.0.template.0.spec.0.hostname" = Some "old"
  /\ Attributes (@migrateStateV0toV1 plain_runtime record_collision).1
       !! "spec.0.template.0.hostname" = None.
Proof.
  destruct (@template_attribute_relocated plain_runtime record_collision
              "spec.0.template.0.hostname" "old") as [Hnew Hold].
  - intros m. reflexivity.
  - vm_compute. reflexivity.
  - vm_compute. reflexivity.
  - split; [exact Hnew|]. apply Hold. vm_compute. reflexivity.
Defined.

Lemma other_attributes_untouched_witness :
  Attributes (@migrateStateV0toV1 plain_runtime record_v0).1 !! "spec.0.replicas"
  = Some "3".
Proof.
  rewrite (@other_attributes_untouched plain_runtime record_v0 "spec.0.replicas").
  - vm_compute. reflexivity.
  - vm_compute. reflexivity.
  - vm_compute. reflexivity.
  - discriminate.
Defined.

Lemma last_name_key_wins_witness :
  Attributes (@migrateStateV0toV1 plain_runtime record_two_names).1
    !! "metadata.0.name" = Some "web"
  /\ Attributes (@migrateStateV0toV1 reversed_runtime record_two_names).1
       !! "metadata.0.name" = Some "prod".
Proof.
  split.
  - apply (@last_name_key_wins plain_runtime record_two_names
             [("namespace", "prod")] "name" "web");
      vm_compute; reflexivity.
  - apply (@last_name_key_wins reversed_runtime record_two_names
             [("name", "web")] "namespace" "prod");
      vm_compute; reflexivity.
Defined.

Lemma migration_order_independent_witness :
  @migrateStateV0toV1 plain_runtime record_v0
  = @migrateStateV0toV1 reversed_runtime record_v0.
Proof.
  apply (migration_order_independent plain_runtime reversed_runtime record_v0).
  - intros m. reflexivity.
  - exact reversed_runtime_complete.
  - left. exact record_v0_one_name_key.
Defined.


(** ** More on the lifecycle operations *)

Section LifecycleMore.
Context `{Opq : Opaque} {C : Clientset} {F : Framework} {H : Helpers}.
Local Open Scope list_scope.

(** *** Operations that keep the identity *)

Lemma keeps_id_ret {A} (a : A) : keeps_id (ret a).
Proof. by intros w. Qed.

Lemma keeps_id_panic {A} (msg : string) : keeps_id (panic (A := A) msg).
Proof. by intros w. Qed.

Lemma keeps_id_get_d : keeps_id get_d.
Proof. by intros w. Qed.

Lemma keeps_id_api {A} (c : Call) (f : cluster -> A * cluster) : keeps_id (api c f).
Proof. intros w. by rewrite api_run. Qed.

Lemma keeps_id_bind {A B} (m : M A) (k : A -> M B) :
  keeps_id m -> (forall a, keeps_id (k a)) -> keeps_id (bind m k).
Proof.
  intros Hm Hk w. unfold bind. specialize (Hm w).
  destruct (m w) as [[a|msg] w1]; simpl in Hm; [|done].
  by rewrite (Hk a w1).
Qed.

Lemma keeps_id_d_Set (key : string) (value : iface) : keeps_id (d_Set key value).
Proof.
  intros w. unfold d_Set, bind, get_d, put_d, ret.
  by destruct (dSet key value (Data (data w))).
Qed.

Ltac keep_step :=
  first
    [ apply keeps_id_ret | apply keeps_id_panic | apply keeps_id_get_d
    | apply keeps_id_api | apply keeps_id_d_Set
    | apply keeps_id_bind; [|intros ?]
    | progress intros
    | case_match ].

Lemma keeps_id_wait (ns name : string) : keeps_id (waitForDeploymentReplicasFunc ns name).
Proof. unfold waitForDeploymentReplicasFunc, Deployments_Get. repeat keep_step. Qed.

Lemma keeps_id_Retry (polls : nat) (f : M (option RetryError)) :
  keeps_id f -> keeps_id (Retry polls f).
Proof.
  intros Hf. unfold Retry. generalize (@None error).
  induction polls as [|polls IH]; intros last; cbn [retry_loop]; repeat keep_step; auto.
Qed.

Lemma keeps_id_Read : keeps_id resourceKubernetesDeploymentRead.
Proof. unfold resourceKubernetesDeploymentRead, Deployments_Get. repeat keep_step. Qed.

Ltac keep_ops :=
  repeat first
    [ apply keeps_id_Retry | apply keeps_id_wait | apply keeps_id_Read | keep_step ].

(** Read, Update and the existence checks never change the stored
    identity, whatever the remote system answers and however they end. *)
Theorem identity_kept_by_read_update_exists (w : World) :
  Id (data (resourceKubernetesDeploymentRead w).2) = Id (data w)
  /\ Id (data (resourceKubernetesDeploymentUpdate w).2) = Id (data w)
  /\ Id (data (resourceKubernetesDeploymentExists w).2) = Id (data w)
  /\ Id (data (resourceKubernetesRoleExists w).2) = Id (data w).
Proof.
  split; [apply keeps_id_Read|]. split; [|split].
  - revert w. change (keeps_id resourceKubernetesDeploymentUpdate).
    unfold resourceKubernetesDeploymentUpdate, Deployments_Patch. keep_ops.
  - revert w. change (keeps_id resourceKubernetesDeploymentExists).
    unfold resourceKubernetesDeploymentExists, Deployments_Get. keep_ops.
  - revert w. change (keeps_id resourceKubernetesRoleExists).
    unfold resourceKubernetesRoleExists, Roles_Get. keep_ops.
Qed.

(** *** Create *)

Lemma calls_after_call {A} (k : M A) (w : World) (c : Call) (r : cluster) :
  calls_grow k -> exists rest, calls (k (after_call w c r)).2 = calls w ++ c :: rest.
Proof.
  intros Hk. destruct (Hk (after_call w c r)) as [rest ->].
  exists rest. simpl. by rewrite <- app_assoc.
Qed.

Lemma Create_run (w : World) (spec : DeploymentSpec) :
  expandDeploymentSpec (dGet "spec" (Data (data w))) = (spec, None) ->
  resourceKubernetesDeploymentCreate w
  = bind (Deployments_Create (create_namespace w) (create_object w spec))
      (fun x => let '(out, err) := x in
         match err with
         | Some e => ret (Some (Errorf "Failed to create deployment: %s" [ArgError e]))
         | None =>
             bind (SetId (buildId (Meta out)))
               (fun _ =>
                  match Replicas (Spec out) with
                  | None => panic "nil pointer dereference"
                  | Some _ =>
                      bind get_d (fun d =>
                        bind (Retry (Timeout d TimeoutCreate)
                                (waitForDeploymentReplicasFunc (GetNamespace out) (GetName out)))
                          (fun err => match err with
                                      | Some e => ret (Some e)
                                      | None => resourceKubernetesDeploymentRead
                                      end))
                  end)
         end) w.
Proof.
  intros Hspec. unfold resourceKubernetesDeploymentCreate. rewrite bind_get_d, Hspec.
  unfold create_object, create_namespace.
  destruct (expandMetadata (dGet "metadata" (Data (data w)))) as [n ns l]. simpl.
  by destruct (String.eqb ns "").
Qed.

(** When the spec cannot be expanded, Create returns that error; nothing
    is called and the record is as it was. *)
Theorem Create_expand_error (w : World) (spec : DeploymentSpec) (e : error) :
  expandDeploymentSpec (dGet "spec" (Data (data w))) = (spec, Some e) ->
  resourceKubernetesDeploymentCreate w = (Done (Some e), w).
Proof.
  intros Hspec. unfold resourceKubernetesDeploymentCreate. by rewrite bind_get_d, Hspec.
Qed.

(** With the spec expanded, the first call of Create is the creation of
    the object in the namespace Create works in: the declared namespace,
    [default] when none is declared, never the empty one; the object carries
    that namespace. *)
Theorem Create_first_call (w : World) (spec : DeploymentSpec) :
  expandDeploymentSpec (dGet "spec" (Data (data w))) = (spec, None) ->
  let declared := Namespace (expandMetadata (dGet "metadata" (Data (data w)))) in
  let ns := create_namespace w in
  (exists rest, calls (resourceKubernetesDeploymentCreate w).2
                = calls w ++ CallDeploymentsCreate ns (create_object w spec) :: rest)
  /\ Namespace (Meta (create_object w spec)) = ns
  /\ ns <> ""
  /\ (declared <> "" -> ns = declared)
  /\ (declared = "" -> ns = "default").
Proof.
  intros Hspec declared ns. subst declared ns. split.
  - rewrite (Create_run w spec Hspec). unfold bind at 1. unfold Deployments_Create.
    rewrite api_run.
    destruct (DeploymentsCreate _ _ _) as [[out [e|]] c1]; cbn [fst snd].
    + apply calls_after_call, calls_grow_ret.
    + apply calls_after_call.
      apply calls_grow_bind; [apply calls_grow_SetId|]. intros _.
      destruct (Replicas (Spec out)); [|apply calls_grow_panic].
      apply calls_grow_bind; [apply calls_grow_get_d|]. intros d.
      apply calls_grow_bind; [apply calls_grow_Retry, calls_grow_wait|].
      intros [e|]; [apply calls_grow_ret | apply calls_grow_Read].
  - split; [done|]. unfold create_namespace.
    destruct (String.eqb_spec
                (Namespace (expandMetadata (dGet "metadata" (Data (data w))))) "")
      as [Heq|Hne].
    + split; [done|]. split; [by intros []|done].
    + split; [done|]. split; [done | by intros ?].
Qed.

(** When the API refuses the creation, Create returns the error wrapped in
    its own message after that one call, and no identity is stored. *)
Theorem Create_api_error (w : World) (spec : DeploymentSpec)
    (out : Deployment) (e : error) (c' : cluster) :
  expandDeploymentSpec (dGet "spec" (Data (data w))) = (spec, None) ->
  DeploymentsCreate (create_namespace w) (create_object w spec) (remote w)
  = ((out, Some e), c') ->
  resourceKubernetesDeploymentCreate w
  = (Done (Some (Errorf "Failed to create deployment: %s" [ArgError e])),
     after_call w (CallDeploymentsCreate (create_namespace w) (create_object w spec)) c').
Proof.
  intros Hspec Hcreate. rewrite (Create_run w spec Hspec).
  unfold bind at 1. unfold Deployments_Create. by rewrite api_run, Hcreate.
Qed.

(** Once the API has created the object, the identity built from the
    metadata it returned is stored, and it is still stored when Create ends,
    also when the wait or the read that follow fail. *)
Theorem Create_stores_identity (w : World) (spec : DeploymentSpec)
    (out : Deployment) (c' : cluster) :
  expandDeploymentSpec (dGet "spec" (Data (data w))) = (spec, None) ->
  DeploymentsCreate (create_namespace w) (create_object w spec) (remote w)
  = ((out, None), c') ->
  Id (data (resourceKubernetesDeploymentCreate w).2) = buildId (Meta out).
Proof.
  intros Hspec Hcreate. rewrite (Create_run w spec Hspec).
  unfold bind at 1. unfold Deployments_Create. rewrite api_run, Hcreate. cbn [fst snd].
  unfold bind at 1. unfold SetId at 1, bind at 1, get_d at 1, put_d. cbn [fst snd].
  match goal with
  | |- Id (data (?k ?w1).2) = _ =>
      assert (Hk : keeps_id k); [|by rewrite (Hk w1)]
  end.
  destruct (Replicas (Spec out)); [|apply keeps_id_panic]. keep_ops.
Qed.

(** *** Read *)

(** Read returns an error of the Get as it is, a status 404 included, after
    that one call and with the record as it was. *)
Theorem Read_get_error (w : World) (ns name : string) (perr : option error)
    (dep : Deployment) (e : error) (c' : cluster) :
  idParts (Id (data w)) = (ns, name, perr) ->
  DeploymentsGet ns name (remote w) = ((dep, Some e), c') ->
  resourceKubernetesDeploymentRead w
  = (Done (Some e), after_call w (CallDeploymentsGet ns name) c').
Proof.
  intros Hid Hget. unfold resourceKubernetesDeploymentRead.
  rewrite bind_get_d, Hid. unfold bind at 1. unfold Deployments_Get.
  by rewrite api_run, Hget.
Qed.

(** *** Update *)

Lemma Update_run (w : World) (ns name : string) (perr : option error)
    (spec : DeploymentSpec) (serr : option error) :
  idParts (Id (data w)) = (ns, name, perr) ->
  expandDeploymentSpec (dGet "spec" (Data (data w))) = (spec, serr) ->
  (dHasChange "spec" (Data (data w)) = true -> serr = None) ->
  resourceKubernetesDeploymentUpdate w
  = (let '(body, err) := MarshalJSON (update_operations w spec) in
     match err with
     | Some e => ret (Some (Errorf "Failed to marshal update operations: %s" [ArgError e]))
     | None =>
         bind (Deployments_Patch ns name JSONPatchType body)
           (fun x => let '(out, err) := x in
              match err with
              | Some e => ret (Some (Errorf "Failed to update deployment: %s" [ArgError e]))
              | None =>
                  bind (Retry (Timeout (data w) TimeoutUpdate)
                          (waitForDeploymentReplicasFunc ns name))
                    (fun err => match err with
                                | Some e => ret (Some e)
                                | None => resourceKubernetesDeploymentRead
                                end)
              end)
     end) w.
Proof.
  intros Hid Hspec Hok. unfold resourceKubernetesDeploymentUpdate, update_operations.
  rewrite bind_get_d, Hid. cbv zeta. rewrite Hspec.
  destruct (dHasChange "spec" (Data (data w))).
  - by rewrite (Hok eq_refl).
  - by rewrite app_nil_r.
Qed.

(** With the operations encoded as [body], Update submits exactly one
    patch, to the deployment of the stored identity and with that body
    (the operations for the metadata, followed by one replacement of
    [/spec] when the spec has changed); every call after it is a Get of the
    same deployment. *)
Theorem Update_calls (w : World) (ns name : string) (perr : option error)
    (spec : DeploymentSpec) (serr : option error) (body : string) :
  idParts (Id (data w)) = (ns, name, perr) ->
  expandDeploymentSpec (dGet "spec" (Data (data w))) = (spec, serr) ->
  (dHasChange "spec" (Data (data w)) = true -> serr = None) ->
  MarshalJSON (update_operations w spec) = (body, None) ->
  exists n, calls (resourceKubernetesDeploymentUpdate w).2
            = calls w ++ CallDeploymentsPatch ns name JSONPatchType body
                         :: replicate n (CallDeploymentsGet ns name).
Proof.
  intros Hid Hspec Hok Hbody. rewrite (Update_run w ns name perr spec serr) by done.
  rewrite Hbody. unfold bind at 1. unfold Deployments_Patch. rewrite api_run.
  destruct (DeploymentsPatch ns name JSONPatchType body (remote w)) as [[out [e|]] c1];
    cbn [fst snd].
  { by exists 0%nat. }
  unfold bind at 1. unfold Retry.
  set (P := CallDeploymentsPatch ns name JSONPatchType body).
  destruct (retry_loop_run ns name (Timeout (data w) TimeoutUpdate) None (after_call w P c1))
    as (out' & n & c2 & -> & _).
  assert (Hcalls : calls (after_polls (after_call w P c1) ns name n c2)
                   = calls w ++ P :: replicate n (CallDeploymentsGet ns name)).
  { simpl. by rewrite <- app_assoc. }
  destruct out' as [[e|]|msg]; cbn [fst snd]; [by exists n | | by exists n].
  exists (S n).
  rewrite (Read_calls _ ns name perr) by done.
  rewrite Hcalls, replicate_S_end, <- app_assoc. done.
Qed.

(** How Update fails before the wait. An error of the expansion of a
    changed spec is returned as it is, with nothing called; an error of the
    encoding is returned wrapped, with nothing called; an error of the patch
    is returned wrapped after that one call. The record is as it was. *)
Theorem Update_failures (w : World) (ns name : string) (perr : option error)
    (spec : DeploymentSpec) (serr : option error) :
  idParts (Id (data w)) = (ns, name, perr) ->
  expandDeploymentSpec (dGet "spec" (Data (data w))) = (spec, serr) ->
  (forall e, dHasChange "spec" (Data (data w)) = true -> serr = Some e ->
     resourceKubernetesDeploymentUpdate w = (Done (Some e), w))
  /\ (forall body e,
        (dHasChange "spec" (Data (data w)) = true -> serr = None) ->
        MarshalJSON (update_operations w spec) = (body, Some e) ->
        resourceKubernetesDeploymentUpdate w
        = (Done (Some (Errorf "Failed to marshal update operations: %s" [ArgError e])), w))
  /\ (forall body out e c',
        (dHasChange "spec" (Data (data w)) = true -> serr = None) ->
        MarshalJSON (update_operations w spec) = (body, None) ->
        DeploymentsPatch ns name JSONPatchType body (remote w) = ((out, Some e), c') ->
        resourceKubernetesDeploymentUpdate w
        = (Done (Some (Errorf "Failed to update deployment: %s" [ArgError e])),
           after_call w (CallDeploymentsPatch ns name JSONPatchType body) c')).
Proof.
  intros Hid Hspec. split; [|split].
  - intros e Hchange ->. unfold resourceKubernetesDeploymentUpdate.
    rewrite bind_get_d, Hid. cbv zeta. by rewrite Hchange, Hspec.
  - intros body e Hok Hbody. rewrite (Update_run w ns name perr spec serr) by done.
    by rewrite Hbody.
  - intros body out e c' Hok Hbody Hpatch.
    rewrite (Update_run w ns name perr spec serr) by done.
    rewrite Hbody. unfold bind at 1. unfold Deployments_Patch.
    by rewrite api_run, Hpatch.
Qed.

(** *** Delete of a role *)

(** With the identity parsed, Delete of a role makes one call, the
    deletion of the role with no propagation policy. An error of that call
    is returned and the record is as it was; without an error the identity
    is cleared and nothing else of the record changes. *)
Theorem Role_delete_steps (w : World) (ns name : string)
    (derr : option error) (c' : cluster) :
  idParts (Id (data w)) = (ns, name, None) ->
  RolesDelete ns name {| PropagationPolicy := None |} (remote w) = (derr, c') ->
  let w1 := after_call w (CallRolesDelete ns name {| PropagationPolicy := None |}) c' in
  resourceKubernetesRoleDelete w
  = match derr with
    | Some e => (Done (Some e), w1)
    | None => (Done None, {| data := cleared (data w); remote := c'; calls := calls w1 |})
    end.
Proof.
  intros Hid Hdel w1. subst w1. unfold resourceKubernetesRoleDelete.
  rewrite bind_get_d, Hid. unfold bind at 1. unfold Roles_Delete.
  rewrite api_run, Hdel. cbn [fst snd]. by destruct derr.
Qed.

(** *** The wait *)

Lemma retry_loop_bounded (ns name : string) (polls : nat) :
  forall (last : option error) (w : World),
  exists out n c',
    (n <= polls)%nat
    /\ retry_loop polls (waitForDeploymentReplicasFunc ns name) last w
       = (out, after_polls w ns name n c')
    /\ (out = Done None -> exists m c, n = S m /\ converged_at ns name c c').
Proof.
  induction polls as [|polls IH]; intros last w; cbn [retry_loop].
  - exists (Done (Some (TimeoutError last))), 0%nat, (remote w).
    split; [lia|]. split; [|discriminate].
    unfold ret, after_polls. destruct w. simpl. by rewrite app_nil_r.
  - unfold bind at 1.
    destruct (wait_tick_run ns name w) as (out & c1 & -> & Hconv).
    assert (Hone : after_call w (CallDeploymentsGet ns name) c1
                   = after_polls w ns name 1 c1) by reflexivity.
    destruct out as [[re|]|msg].
    + destruct (Retryable re).
      * destruct (IH (Some (Err re)) (after_call w (CallDeploymentsGet ns name) c1))
          as (out & n & c2 & Hn & -> & Hout).
        exists out, (S n), c2. split; [lia|]. split.
        { unfold after_polls, after_call. simpl. by rewrite <- app_assoc. }
        intros Hnil. destruct (Hout Hnil) as (m & c & -> & Hc). eauto.
      * exists (Done (Some (Err re))), 1%nat, c1.
        split; [lia|]. split; [by rewrite Hone | discriminate].
    + exists (Done None), 1%nat, c1. split; [lia|]. split; [by rewrite Hone|].
      intros _. exists 0%nat, (remote w). split; [done|]. by apply Hconv.
    + exists (Panicked msg), 1%nat, c1.
      split; [lia|]. split; [by rewrite Hone | discriminate].
Qed.

(** The wait for the replicas makes nothing but Gets of the deployment, at
    most as many as its budget of polls, and does not touch the record; it
    returns nil only after a Get that found the observed count equal to the
    desired one, so never with a budget of no poll. *)
Theorem wait_bounded (ns name : string) (polls : nat) (w : World) :
  exists n c',
    (n <= polls)%nat
    /\ (Retry polls (waitForDeploymentReplicasFunc ns name) w).2
       = after_polls w ns name n c'
    /\ ((Retry polls (waitForDeploymentReplicasFunc ns name) w).1 = Done None ->
        (1 <= n)%nat /\ exists c, converged_at ns name c c').
Proof.
  unfold Retry. destruct (retry_loop_bounded ns name polls None w)
    as (out & n & c' & Hn & -> & Hout).
  exists n, c'. split; [done|]. split; [done|]. cbn [fst].
  intros Hnil. destruct (Hout Hnil) as (m & c & -> & Hc). split; [lia | eauto].
Qed.

End LifecycleMore.

(** ** More runs in the sample world *)

Section MoreSampleRuns.
Import Sample SampleFailures.

Lemma Create_expand_error_witness :
  resourceKubernetesDeploymentCreate (F := framework) (H := helpers_no_spec) web
  = (Done (Some bad_spec), web).
Proof.
  apply (Create_expand_error (F := framework) (H := helpers_no_spec) web
           {| Replicas := None; Rest := tt : @SpecRest opaque |} bad_spec).
  reflexivity.
Defined.

Lemma Create_first_call_witness :
  create_namespace (F := framework) (H := helpers_no_marshal) web = "default"
  /\ exists rest,
       calls (resourceKubernetesDeploymentCreate (F := framework) (H := helpers_no_marshal)
                web).2
       = CallDeploymentsCreate "default"
           (create_object (F := framework) (H := helpers_no_marshal) web
              {| Replicas := Some 3; Rest := tt : @SpecRest opaque |}) :: rest.
Proof.
  destruct (Create_first_call (F := framework) (H := helpers_no_marshal) web
              {| Replicas := Some 3; Rest := tt : @SpecRest opaque |} eq_refl)
    as (Hcalls & _ & _ & _ & Hdefault).
  split; [by apply Hdefault | exact Hcalls].
Defined.

Lemma Create_api_error_witness :
  (resourceKubernetesDeploymentCreate (F := framework) (H := helpers) cut_off).1
  = Done (Some (Errorf "Failed to create deployment: %s" [ArgError refused])).
Proof.
  rewrite (Create_api_error (F := framework) (H := helpers) cut_off
             {| Replicas := Some 3; Rest := tt : @SpecRest opaque |}
             (create_object (F := framework) (H := helpers) cut_off
                {| Replicas := Some 3; Rest := tt : @SpecRest opaque |})
             refused tt eq_refl eq_refl).
  reflexivity.
Defined.

Lemma Create_stores_identity_witness :
  Id (data (resourceKubernetesDeploymentCreate (F := framework) (H := helpers) web).2)
  = "default/web".
Proof.
  rewrite (Create_stores_identity (F := framework) (H := helpers) web
             {| Replicas := Some 3; Rest := tt : @SpecRest opaque |}
             (create_object (F := framework) (H := helpers) web
                {| Replicas := Some 3; Rest := tt : @SpecRest opaque |})
             {| present := true; desired := 3; observed := 0 |} eq_refl eq_refl).
  reflexivity.
Defined.

Lemma Read_get_error_witness :
  resourceKubernetesDeploymentRead (F := framework) (H := helpers) malformed
  = (Done (Some not_found), after_call malformed (CallDeploymentsGet "" "") running).
Proof.
  apply (Read_get_error (F := framework) (H := helpers) malformed "" ""
           (Some (Errorf "Unexpected ID format (%q), expected %q."
                    [ArgString "web"; ArgString "namespace/name"]))
           no_deployment not_found running); reflexivity.
Defined.

Lemma Update_calls_witness :
  exists n,
    calls (resourceKubernetesDeploymentUpdate (F := framework) (H := helpers) web).2
    = CallDeploymentsPatch "default" "web" JSONPatchType "[{op:replace}]"
        :: replicate n (CallDeploymentsGet "default" "web").
Proof.
  apply (Update_calls (F := framework) (H := helpers) web "default" "web" None
           {| Replicas := Some 3; Rest := tt : @SpecRest opaque |} None "[{op:replace}]");
    reflexivity.
Defined.

Lemma Update_failures_witness :
  resourceKubernetesDeploymentUpdate (F := framework) (H := helpers_no_marshal) web
  = (Done (Some (Errorf "Failed to marshal update operations: %s" [ArgError bad_encoding])),
     web)
  /\ (resourceKubernetesDeploymentUpdate (F := framework) (H := helpers) cut_off).1
     = Done (Some (Errorf "Failed to update deployment: %s" [ArgError refused])).
Proof.
  split.
  - destruct (Update_failures (F := framework) (H := helpers_no_marshal) web "default" "web"
                None {| Replicas := Some 3; Rest := tt : @SpecRest opaque |} None
                eq_refl eq_refl) as (_ & Hmarshal & _).
    apply (Hmarshal "" bad_encoding); [discriminate | reflexivity].
  - destruct (Update_failures (F := framework) (H := helpers) cut_off "default" "web"
                None {| Replicas := Some 3; Rest := tt : @SpecRest opaque |} None
                eq_refl eq_refl) as (_ & _ & Hpatch).
    rewrite (Hpatch "[{op:replace}]" no_deployment refused tt);
      [reflexivity | discriminate | reflexivity | reflexivity].
Defined.

Lemma Role_delete_steps_witness :
  resourceKubernetesRoleDelete (H := helpers) web
  = (Done (Some (StatusError 404 "roles not found")),
     after_call web (CallRolesDelete "default" "web" {| PropagationPolicy := None |}) running).
Proof.
  apply (Role_delete_steps (H := helpers) web "default" "web"
           (Some (StatusError 404 "roles not found")) running); reflexivity.
Defined.

End MoreSampleRuns.

(** ** The relocation of template keys can be undone *)

(** Replacing, in the key an attribute is moved to, the first
    [spec.0.template.0.spec.0] by [spec.0.template.0] gives back the key it
    came from; so two different keys are never moved to the same key. *)
Theorem relocation_invertible (k1 k2 : string) :
  strings.Replace1 (relocated k1) "spec.0.template.0.spec.0" "spec.0.template.0" = k1
  /\ (relocated k1 = relocated k2 -> k1 = k2).
Proof.
  split; [|apply relocated_inj].
  apply (Replace1_round_trip "spec.0.template.0" ".spec.0" k1).
Qed.
